(** * ApplicationInsights-JS: internal logging and data-loss accounting

    A shallow embedding of [_InternalLogging] (logging.ts) and
    [DataLossAnalyzer] (DataLossAnalyzer.ts).  The static fields of the two
    classes, the heap of [_InternalLogMessage] objects and the host objects
    the code talks to (console, sessionStorage, the AppInsights instance)
    form one [World]; every method is a computation in a state-and-exception
    monad over it.  A thrown exception keeps the mutations done before it, as
    in JavaScript.

    Numbers are modelled by their integer values ([Z]) plus [NaN]: the
    counters of this code are integers.  Strings denoting non-integer
    numerals are outside the model. *)

From Stdlib Require Import ZArith QArith String Ascii List Lia Bool.
From Stdlib Require Import DecimalString DecimalZ DecimalPos.
From stdpp Require Import base option list gmap strings.

Open Scope string_scope.
Open Scope list_scope.
Open Scope Z_scope.

(** ** Values *)

Definition loc := nat.

(** What a caller can pass where an [_InternalLogMessage] is expected. *)
Inductive Value :=
| VUndefined
| VNull
| VRef (l : loc).

(** An object as [JSON.stringify] sees it: a literal with string fields, or
    a structure with a cycle. *)
Inductive JsObject :=
| ObjLiteral (fields : list (string * string))
| ObjCircular.

(** The [properties] field ([any] in the source). *)
Inductive Properties :=
| PropUndefined
| PropNull
| PropString (s : string)
| PropObject (o : JsObject).

(** [typeof p === "object"] *)
Definition typeof_object (p : Properties) : bool :=
  match p with
  | PropNull | PropObject _ => true
  | PropUndefined | PropString _ => false
  end.

(** [!p] *)
Definition falsy (p : Properties) : bool :=
  match p with
  | PropUndefined | PropNull => true
  | PropString s => if decide (s = "") then true else false
  | PropObject _ => false
  end.

(** [class _InternalLogMessage]; [message] is [None] when undefined. *)
Record InternalLogMessage := {
  message : option string;
  properties : Properties
}.

Inductive LoggingSeverity := CRITICAL | WARNING.

Definition is_CRITICAL (s : LoggingSeverity) : bool :=
  match s with CRITICAL => true | WARNING => false end.

(** What a [throw] carries: the message value itself (debug mode), or an
    error object of the host. *)
Inductive Thrown :=
| ThrownValue (v : Value)
| ThrownError (name text : string).

(** A method slot of a host object. *)
Inductive Method :=
| NotAFunction
| Returns
| Throws (e : Thrown).

Record Console := { warn : Method; log : Method }.

Record AppInsights := { trackTrace : Method; flush : Method }.

Inductive ReporterCall :=
| CallTrackTrace (text : string)
| CallFlush.

(** [window.sessionStorage]: which methods exist, the stored items, and for
    each coming [getItem]/[setItem] call whether it throws ([Some e]) or
    not; past the end of [faults] no call throws. *)
Record Storage := {
  has_getItem : bool;
  has_setItem : bool;
  items : gmap string string;
  faults : list (option Thrown)
}.

(** ** Numbers *)

Inductive JsNum := NaN | Num (z : Z).

Definition isNaN (n : JsNum) : bool :=
  match n with NaN => true | Num _ => false end.

(** [a < b]; false when either side is NaN *)
Definition js_lt (a b : JsNum) : bool :=
  match a, b with Num x, Num y => x <? y | _, _ => false end.

Definition js_add (a b : JsNum) : JsNum :=
  match a, b with Num x, Num y => Num (x + y) | _, _ => NaN end.

Definition js_sub (a b : JsNum) : JsNum :=
  match a, b with Num x, Num y => Num (x - y) | _, _ => NaN end.

(** [n.toString()] *)
Definition toString (n : JsNum) : string :=
  match n with
  | NaN => "NaN"
  | Num z => NilZero.string_of_int (Z.to_int z)
  end.

(** Unary [+] on what [getItem] returns, for the strings this code writes
    and the tests store: [null] and the empty string give 0, a decimal
    integer (an optional minus sign and digits) its value, anything else
    NaN.  The host reads more strings as numbers than that (surrounding
    white space, a plus sign, hexadecimal, a fraction or an exponent,
    [Infinity]); on those [ToNumber] differs from the host, and the
    properties of [reportLostItems] that start from stored strings of any
    origin are stated for the strings of [plain_numeral] below. *)
Definition ToNumber (v : option string) : JsNum :=
  match v with
  | None => Num 0
  | Some s =>
      match NilZero.int_of_string s with
      | Some d => Num (Z.of_int d)
      | None => if decide (s = "") then Num 0 else NaN
      end
  end.

Definition is_letter (a : ascii) : bool :=
  let n := nat_of_ascii a in
  ((65 <=? n) && (n <=? 90) || (97 <=? n) && (n <=? 122))%nat.

(** The stored values on which [ToNumber] is the host's unary [+]: an absent
    item (0); an optional minus sign and decimal digits, of magnitude below
    2^53 (the integer itself, which [toString] and [+ 1] then treat exactly);
    or letters only, other than [Infinity]: the empty string (0) and words
    such as [NaN], which hold no numeric literal and read as NaN. *)
Definition plain_numeral (v : option string) : bool :=
  match v with
  | None => true
  | Some s =>
      match NilZero.int_of_string s with
      | Some d => Z.abs (Z.of_int d) <? 2 ^ 53
      | None =>
          forallb is_letter (list_ascii_of_string s)
          && negb (String.eqb s "Infinity")
      end
  end.

(** ** The world *)

Record World := {
  heap : list InternalLogMessage;
  (* _InternalLogging *)
  enableDebugExceptions : bool;
  verboseLogging : bool;
  queue : list Value;
  MAX_INTERNAL_MESSAGE_LIMIT : Z;
  _messageCount : Z;
  (* console *)
  console : option Console;
  console_lines : list string;
  (* DataLossAnalyzer *)
  enabled : bool;
  appInsights : option AppInsights;
  reporter_calls : list ReporterCall;
  sessionStorage : option Storage
}.

Definition set_heap (h : list InternalLogMessage) (w : World) : World :=
  {| heap := h;
     enableDebugExceptions := enableDebugExceptions w;
     verboseLogging := verboseLogging w;
     queue := queue w;
     MAX_INTERNAL_MESSAGE_LIMIT := MAX_INTERNAL_MESSAGE_LIMIT w;
     _messageCount := _messageCount w;
     console := console w;
     console_lines := console_lines w;
     enabled := enabled w;
     appInsights := appInsights w;
     reporter_calls := reporter_calls w;
     sessionStorage := sessionStorage w |}.

Definition set_queue (q : list Value) (w : World) : World :=
  {| heap := heap w;
     enableDebugExceptions := enableDebugExceptions w;
     verboseLogging := verboseLogging w;
     queue := q;
     MAX_INTERNAL_MESSAGE_LIMIT := MAX_INTERNAL_MESSAGE_LIMIT w;
     _messageCount := _messageCount w;
     console := console w;
     console_lines := console_lines w;
     enabled := enabled w;
     appInsights := appInsights w;
     reporter_calls := reporter_calls w;
     sessionStorage := sessionStorage w |}.

Definition set_limit (n : Z) (w : World) : World :=
  {| heap := heap w;
     enableDebugExceptions := enableDebugExceptions w;
     verboseLogging := verboseLogging w;
     queue := queue w;
     MAX_INTERNAL_MESSAGE_LIMIT := n;
     _messageCount := _messageCount w;
     console := console w;
     console_lines := console_lines w;
     enabled := enabled w;
     appInsights := appInsights w;
     reporter_calls := reporter_calls w;
     sessionStorage := sessionStorage w |}.

Definition set_count (n : Z) (w : World) : World :=
  {| heap := heap w;
     enableDebugExceptions := enableDebugExceptions w;
     verboseLogging := verboseLogging w;
     queue := queue w;
     MAX_INTERNAL_MESSAGE_LIMIT := MAX_INTERNAL_MESSAGE_LIMIT w;
     _messageCount := n;
     console := console w;
     console_lines := console_lines w;
     enabled := enabled w;
     appInsights := appInsights w;
     reporter_calls := reporter_calls w;
     sessionStorage := sessionStorage w |}.

Definition set_console_lines (ls : list string) (w : World) : World :=
  {| heap := heap w;
     enableDebugExceptions := enableDebugExceptions w;
     verboseLogging := verboseLogging w;
     queue := queue w;
     MAX_INTERNAL_MESSAGE_LIMIT := MAX_INTERNAL_MESSAGE_LIMIT w;
     _messageCount := _messageCount w;
     console := console w;
     console_lines := ls;
     enabled := enabled w;
     appInsights := appInsights w;
     reporter_calls := reporter_calls w;
     sessionStorage := sessionStorage w |}.

Definition set_reporter_calls (cs : list ReporterCall) (w : World) : World :=
  {| heap := heap w;
     enableDebugExceptions := enableDebugExceptions w;
     verboseLogging := verboseLogging w;
     queue := queue w;
     MAX_INTERNAL_MESSAGE_LIMIT := MAX_INTERNAL_MESSAGE_LIMIT w;
     _messageCount := _messageCount w;
     console := console w;
     console_lines := console_lines w;
     enabled := enabled w;
     appInsights := appInsights w;
     reporter_calls := cs;
     sessionStorage := sessionStorage w |}.

Definition set_sessionStorage (s : option Storage) (w : World) : World :=
  {| heap := heap w;
     enableDebugExceptions := enableDebugExceptions w;
     verboseLogging := verboseLogging w;
     queue := queue w;
     MAX_INTERNAL_MESSAGE_LIMIT := MAX_INTERNAL_MESSAGE_LIMIT w;
     _messageCount := _messageCount w;
     console := console w;
     console_lines := console_lines w;
     enabled := enabled w;
     appInsights := appInsights w;
     reporter_calls := reporter_calls w;
     sessionStorage := s |}.

(** ** The monad: state plus exceptions *)

Inductive Result (A : Type) :=
| Ret (a : A)
| Throw (e : Thrown).
Arguments Ret {A} a.
Arguments Throw {A} e.

Definition M (A : Type) : Type := World -> Result A * World.

Definition ret {A} (a : A) : M A := fun w => (Ret a, w).

Definition throw {A} (e : Thrown) : M A := fun w => (Throw e, w).

Definition bind {A B} (c : M A) (k : A -> M B) : M B :=
  fun w =>
    match c w with
    | (Ret a, w') => k a w'
    | (Throw e, w') => (Throw e, w')
    end.

Definition gets {A} (f : World -> A) : M A := fun w => (Ret (f w), w).

Definition modify (f : World -> World) : M unit := fun w => (Ret tt, f w).

(** [try { body } catch (e) { handler e }] *)
Definition try_catch {A} (body : M A) (handler : Thrown -> M A) : M A :=
  fun w =>
    match body w with
    | (Ret a, w') => (Ret a, w')
    | (Throw e, w') => handler e w'
    end.

(** [try { body } finally { fin }]: [fin] always runs; when it throws, its
    exception replaces the outcome of [body]. *)
Definition try_finally {A} (body : M A) (fin : M unit) : M A :=
  fun w =>
    match body w with
    | (r, w') =>
        match fin w' with
        | (Ret _, w'') => (r, w'')
        | (Throw e, w'') => (Throw e, w'')
        end
    end.

Notation "'let*' x ':=' c 'in' k" := (bind c (fun x => k))
  (at level 10, x name, c at level 100, k at level 200).

(** ** The console *)

Definition call_console (m : Method) (text : string) : M unit :=
  match m with
  | Returns => modify (fun w => set_console_lines (console_lines w ++ [text]) w)
  | Throws e => throw e
  | NotAFunction => throw (ThrownError "TypeError" "not a function")
  end.

Definition is_function (m : Method) : bool :=
  match m with NotAFunction => false | Returns | Throws _ => true end.

(** ** [_InternalLogging] *)

Definition AiUserActionablePrefix : string := "AI: ".

Definition AiNonUserActionablePrefix : string := "AI (Internal): ".

(** [message.message] and [message.properties] of the object at [l]; an
    absent field reads as undefined. *)
Definition read_message (l : loc) : M (option string) :=
  gets (fun w => match heap w !! l with Some o => message o | None => None end).

Definition read_properties (l : loc) : M Properties :=
  gets (fun w => match heap w !! l with
                 | Some o => properties o
                 | None => PropUndefined
                 end).

(** [message.message = text] *)
Definition write_message (l : loc) (text : string) : M unit :=
  modify (fun w =>
    match heap w !! l with
    | Some o =>
        set_heap (<[l := {| message := Some text; properties := properties o |}]> (heap w)) w
    | None => w
    end).

(** [new _InternalLogMessage(msg, properties)] *)
Definition new_InternalLogMessage (msg : option string) (props : Properties) : M loc :=
  fun w =>
    let o := {| message := msg;
                properties := if falsy props then PropObject (ObjLiteral []) else props |} in
    (Ret (length (heap w)), set_heap (heap w ++ [o]) w).

Definition queue_push (v : Value) : M unit :=
  modify (fun w => set_queue (queue w ++ [v]) w).

Definition warnToConsole (text : string) : M unit :=
  let* c := gets console in
  match c with
  | Some c =>
      if is_function (warn c) then call_console (warn c) text
      else if is_function (log c) then call_console (log c) text
      else ret tt
  | None => ret tt
  end.

Definition resetInternalMessageCount : M unit :=
  modify (set_count 0).

(** [limit] is a number; [!limit] holds for 0 and NaN. *)
Definition setMaxInternalMessageLimit (limit : JsNum) : M unit :=
  match limit with
  | NaN | Num 0 => throw (ThrownError "Error" "limit cannot be undefined.")
  | Num n => modify (set_limit n)
  end.

Definition _areInternalMessagesThrottled : M bool :=
  gets (fun w => MAX_INTERNAL_MESSAGE_LIMIT w <=? _messageCount w).

Definition logInternalMessage (severity : LoggingSeverity) (msg : Value) : M unit :=
  let* throttled := _areInternalMessagesThrottled in
  if throttled then ret tt
  else
    let* verbose := gets verboseLogging in
    let* _ :=
      if verbose || is_CRITICAL severity then
        let* _ := queue_push msg in
        modify (fun w => set_count (_messageCount w + 1) w)
      else ret tt in
    let* reached := gets (fun w => _messageCount w =? MAX_INTERNAL_MESSAGE_LIMIT w) in
    if reached then
      let throttleLimitMessage :=
        AiNonUserActionablePrefix
        +:+ "Internal events throttle limit per PageView reached for this app." in
      let* throttleMessage := new_InternalLogMessage (Some throttleLimitMessage) PropUndefined in
      let* _ := queue_push (VRef throttleMessage) in
      warnToConsole throttleLimitMessage
    else ret tt.

Section Host.

(** Functions of the host and of [Util] that this code calls and that are not
    part of it: [JSON.stringify] (returns the text, or throws),
    [Util.getExceptionName] and [Util.dump]. *)
Variable JSON_stringify : Properties -> Result string.
Variable Util_getExceptionName : Thrown -> string.
Variable Util_dump : Thrown -> string.

Definition stringify (p : Properties) : M string :=
  fun w => (JSON_stringify p, w).

Definition throwInternalNonUserActionable (severity : LoggingSeverity) (msg : Value) : M unit :=
  let* debug := gets enableDebugExceptions in
  if debug then throw (ThrownValue msg)
  else
    match msg with
    | VRef l =>
        let* text := read_message l in
        match text with
        | Some text =>
            let prefixed := AiNonUserActionablePrefix +:+ text in
            let* _ := write_message l prefixed in
            let* props := read_properties l in
            let* _ :=
              if typeof_object props then
                let* json := stringify props in
                warnToConsole (prefixed +:+ " properties: " +:+ json)
              else warnToConsole prefixed in
            logInternalMessage severity msg
        | None => ret tt
        end
    | VUndefined | VNull => ret tt
    end.

Definition throwInternalUserActionable (severity : LoggingSeverity) (msg : Value) : M unit :=
  let* debug := gets enableDebugExceptions in
  if debug then throw (ThrownValue msg)
  else
    match msg with
    | VRef l =>
        let* text := read_message l in
        match text with
        | Some text =>
            let prefixed := AiUserActionablePrefix +:+ text in
            let* _ := write_message l prefixed in
            let* props := read_properties l in
            let* _ :=
              if typeof_object props then
                let* json := stringify props in
                warnToConsole (prefixed +:+ " properties: " +:+ json)
              else warnToConsole prefixed in
            logInternalMessage severity msg
        | None => ret tt
        end
    | VUndefined | VNull => ret tt
    end.

(** ** [DataLossAnalyzer] *)

Definition LIMIT_PER_SESSION : JsNum := Num 10.

Definition ITEMS_QUEUED_KEY : string := "AI_itemsQueued".

Definition ISSUES_REPORTED_KEY : string := "AI_lossIssuesReported".

(** The next [getItem]/[setItem] call takes the head of [faults]. *)
Definition storage_call {A} (present : Storage -> bool)
    (run : Storage -> A * gmap string string) : M A :=
  fun w =>
    match sessionStorage w with
    | Some s =>
        if present s then
          match faults s with
          | Some e :: fs =>
              (Throw e,
               set_sessionStorage
                 (Some {| has_getItem := has_getItem s; has_setItem := has_setItem s;
                          items := items s; faults := fs |}) w)
          | rest =>
              let '(a, m) := run s in
              (Ret a,
               set_sessionStorage
                 (Some {| has_getItem := has_getItem s; has_setItem := has_setItem s;
                          items := m; faults := tail rest |}) w)
          end
        else (Throw (ThrownError "TypeError" "not a function"), w)
    | None => (Throw (ThrownError "TypeError" "sessionStorage is undefined"), w)
    end.

Definition sessionStorage_getItem (key : string) : M (option string) :=
  storage_call has_getItem (fun s => (items s !! key, items s)).

Definition sessionStorage_setItem (key value : string) : M unit :=
  storage_call has_setItem (fun s => (tt, <[key := value]> (items s))).

Definition call_reporter (m : AppInsights -> Method) (c : ReporterCall) : M unit :=
  let* ai := gets appInsights in
  match ai with
  | Some ai =>
      match m ai with
      | Returns => modify (fun w => set_reporter_calls (reporter_calls w ++ [c]) w)
      | Throws e =>
          let* _ := modify (fun w => set_reporter_calls (reporter_calls w ++ [c]) w) in
          throw e
      | NotAFunction => throw (ThrownError "TypeError" "not a function")
      end
  | None => throw (ThrownError "TypeError" "appInsights is null")
  end.

Definition isEnabled : M bool :=
  gets (fun w =>
    enabled w
    && bool_decide (is_Some (appInsights w))
    && match sessionStorage w with
       | Some s => has_getItem s && has_setItem s
       | None => false
       end).

Definition reset : M unit :=
  let* en := isEnabled in
  if en then sessionStorage_setItem ITEMS_QUEUED_KEY "0" else ret tt.

Definition getIssuesReported : M JsNum :=
  let* en := isEnabled in
  if negb en then ret (Num 0)
  else
    let* v := sessionStorage_getItem ISSUES_REPORTED_KEY in
    if isNaN (ToNumber v) then ret (Num 0)
    else
      let* v' := sessionStorage_getItem ISSUES_REPORTED_KEY in
      ret (ToNumber v').

Definition getNumberOfLostItems : M JsNum :=
  try_catch
    (let* en := isEnabled in
     if en then
       let* v := sessionStorage_getItem ITEMS_QUEUED_KEY in
       if isNaN (ToNumber v) then ret (Num 0)
       else
         let* v' := sessionStorage_getItem ITEMS_QUEUED_KEY in
         ret (ToNumber v')
     else ret (Num 0))
    (fun _ => ret (Num 0)).

Definition incrementItemsQueued : M unit :=
  try_catch
    (let* en := isEnabled in
     if en then
       let* itemsQueued := getNumberOfLostItems in
       let itemsQueued := js_add itemsQueued (Num 1) in
       sessionStorage_setItem ITEMS_QUEUED_KEY (toString itemsQueued)
     else ret tt)
    (fun _ => ret tt).

Definition decrementItemsQueued (countOfItemsSentSuccessfully : JsNum) : M unit :=
  try_catch
    (let* en := isEnabled in
     if en then
       let* itemsQueued := getNumberOfLostItems in
       let itemsQueued := js_sub itemsQueued countOfItemsSentSuccessfully in
       let itemsQueued := if js_lt itemsQueued (Num 0) then Num 0 else itemsQueued in
       sessionStorage_setItem ITEMS_QUEUED_KEY (toString itemsQueued)
     else ret tt)
    (fun _ => ret tt).

(** The condition of [reportLostItems], with the short circuit of [&&]. *)
Definition shouldReport : M bool :=
  let* en := isEnabled in
  if en then
    let* reported := getIssuesReported in
    if js_lt reported LIMIT_PER_SESSION then
      let* lost := getNumberOfLostItems in
      ret (js_lt (Num 0) lost)
    else ret false
  else ret false.

Definition reportLostItems : M unit :=
  try_finally
    (try_catch
       (let* go := shouldReport in
        if go then
          let* lost := getNumberOfLostItems in
          let* _ := call_reporter trackTrace
                      (CallTrackTrace ("AI (Internal): Internal report DATALOSS: "
                                       +:+ toString lost)) in
          let* _ := call_reporter flush CallFlush in
          let* issuesReported := getIssuesReported in
          let issuesReported := js_add issuesReported (Num 1) in
          sessionStorage_setItem ISSUES_REPORTED_KEY (toString issuesReported)
        else ret tt)
       (fun e =>
          let* m := new_InternalLogMessage
                      (Some ("Failed to report data loss: " +:+ Util_getExceptionName e))
                      (PropObject (ObjLiteral [("exception", Util_dump e)])) in
          throwInternalNonUserActionable CRITICAL (VRef m)))
    (try_catch reset (fun _ => ret tt)).

(** The two public report calls, by actionability class. *)
Inductive Actionability := UserActionable | NonUserActionable.

Definition prefix_of (a : Actionability) : string :=
  match a with
  | UserActionable => AiUserActionablePrefix
  | NonUserActionable => AiNonUserActionablePrefix
  end.

Definition record (a : Actionability) : LoggingSeverity -> Value -> M unit :=
  match a with
  | UserActionable => throwInternalUserActionable
  | NonUserActionable => throwInternalNonUserActionable
  end.

End Host.

(** ** Calls and predicates used to state the properties *)

(** [warnToConsole] reaches no method that throws. *)
Definition console_quiet (w : World) : bool :=
  match console w with
  | None => true
  | Some c =>
      match warn c with
      | Returns => true
      | Throws _ => false
      | NotAFunction =>
          match log c with Throws _ => false | Returns | NotAFunction => true end
      end
  end.

Definition is_Ret {A} (r : Result A) : bool :=
  match r with Ret _ => true | Throw _ => false end.

(** [o] has a text, and [JSON.stringify] returns on its properties when the
    code calls it. *)
Definition loggable (stringify : Properties -> Result string)
    (o : InternalLogMessage) : bool :=
  bool_decide (is_Some (message o))
  && (if typeof_object (properties o) then is_Ret (stringify (properties o)) else true).

(** A well-formed message: a reference to a [loggable] object. *)
Definition well_formed (stringify : Properties -> Result string)
    (w : World) (v : Value) : bool :=
  match v with
  | VRef l => match heap w !! l with Some o => loggable stringify o | None => false end
  | VUndefined | VNull => false
  end.

(** A degenerate message: undefined, null, or without a [message] field. *)
Definition degenerate (w : World) (v : Value) : bool :=
  match v with
  | VRef l =>
      match heap w !! l with
      | Some o => bool_decide (message o = None)
      | None => true
      end
  | VUndefined | VNull => true
  end.

(** One call into the Diagnostic Log. *)
Inductive Call :=
| ViaRecord (a : Actionability) (s : LoggingSeverity) (v : Value)
| Direct (s : LoggingSeverity) (v : Value)
| Warn (text : string).

Definition perform (stringify : Properties -> Result string) (c : Call) : M unit :=
  match c with
  | ViaRecord a s v => record stringify a s v
  | Direct s v => logInternalMessage s v
  | Warn text => warnToConsole text
  end.

(** Calls one after the other; an exception ends the sequence. *)
Fixpoint perform_all (stringify : Properties -> Result string) (cs : list Call) : M unit :=
  match cs with
  | [] => ret tt
  | c :: cs => let* _ := perform stringify c in perform_all stringify cs
  end.

(** A call that records the well-formed message [v] with a severity that
    passes the verbosity filter of [w]. *)
Definition records (stringify : Properties -> Result string) (w : World)
    (c : Call) : bool :=
  match c with
  | ViaRecord _ s v | Direct s v =>
      (verboseLogging w || is_CRITICAL s) && well_formed stringify w v
  | Warn _ => false
  end.

Definition call_value (c : Call) : Value :=
  match c with
  | ViaRecord _ _ v | Direct _ v => v
  | Warn _ => VUndefined
  end.

(** The sentinel object of [logInternalMessage]. *)
Definition throttleMessage : InternalLogMessage :=
  {| message := Some "AI (Internal): Internal events throttle limit per PageView reached for this app.";
     properties := PropObject (ObjLiteral []) |}.

(** [n] times the same computation. *)
Fixpoint repeat_M (n : nat) (c : M unit) : M unit :=
  match n with
  | O => ret tt
  | S n => let* _ := c in repeat_M n c
  end.

(** The stored number under [key], as the getters read it. *)
Definition stored (key : string) (w : World) : JsNum :=
  match sessionStorage w with
  | Some s => ToNumber (items s !! key)
  | None => Num 0
  end.

Definition no_faults (w : World) : bool :=
  match sessionStorage w with
  | Some s => bool_decide (faults s = [])
  | None => true
  end.

Definition ledger_enabled (w : World) : bool :=
  enabled w
  && bool_decide (is_Some (appInsights w))
  && match sessionStorage w with
     | Some s => has_getItem s && has_setItem s
     | None => false
     end.

(** The reporter's two methods return. *)
Definition reporter_returns (w : World) : bool :=
  match appInsights w with
  | Some ai =>
      match trackTrace ai, flush ai with
      | Returns, Returns => true
      | _, _ => false
      end
  | None => false
  end.

(** [trackTrace] or, after it, [flush] throws. *)
Definition reporter_throws (w : World) : bool :=
  match appInsights w with
  | Some ai =>
      match trackTrace ai, flush ai with
      | Throws _, _ => true
      | Returns, Throws _ => true
      | _, _ => false
      end
  | None => false
  end.

(** ** Auxiliary definitions and concrete worlds *)

(** The part of the world the Diagnostic Log never writes. *)
Definition ledger_part (w : World) :=
  (enabled w, appInsights w, reporter_calls w, sessionStorage w).

(** The settings of the Diagnostic Log. *)
Definition log_settings (w : World) :=
  (enableDebugExceptions w, verboseLogging w, console w, MAX_INTERNAL_MESSAGE_LIMIT w).

(** What [warnToConsole] leaves alone. *)
Definition log_state (w : World) :=
  (heap w, queue w, _messageCount w, log_settings w, ledger_part w).

(** The world after [message.message = prefix + message.message]. *)
Definition prefixed_world (a : Actionability) (l : loc) (o : InternalLogMessage)
    (text : string) (w : World) : World :=
  set_heap (<[l := {| message := Some (prefix_of a +:+ text);
                      properties := properties o |}]> (heap w)) w.

(** The Ledger is enabled and the backend throws on no call. *)
Definition healthy (w : World) (s : Storage) : Prop :=
  sessionStorage w = Some s /\ has_getItem s = true /\ has_setItem s = true /\
  faults s = [] /\ enabled w = true /\ is_Some (appInsights w).

(** [w] with a working sessionStorage holding [m]. *)
Definition with_items (m : gmap string string) (w : World) : World :=
  set_sessionStorage
    (Some {| has_getItem := true; has_setItem := true; items := m; faults := [] |}) w.

(** [NaN] read as 0, as the getters do. *)
Definition or_zero (n : JsNum) : JsNum := if isNaN n then Num 0 else n.

(** [JSON.stringify] returns on the properties of [v], where a report call
    would apply it. *)
Definition serializable (stringify : Properties -> Result string)
    (w : World) (v : Value) : bool :=
  match v with
  | VRef l =>
      match heap w !! l with
      | Some o =>
          if typeof_object (properties o) then is_Ret (stringify (properties o)) else true
      | None => true
      end
  | VUndefined | VNull => true
  end.

(** A CRITICAL call that records a well-formed message. *)
Definition critical_record (stringify : Properties -> Result string)
    (w : World) (c : Call) : bool :=
  match c with
  | ViaRecord _ CRITICAL v | Direct CRITICAL v => well_formed stringify w v
  | _ => false
  end.

(** A call, of either severity, that records a well-formed message. *)
Definition well_formed_call (stringify : Properties -> Result string)
    (w : World) (c : Call) : bool :=
  match c with
  | ViaRecord _ _ v | Direct _ v => well_formed stringify w v
  | Warn _ => false
  end.

(** The string persisted under [key], if any. *)
Definition persisted (key : string) (w : World) : option string :=
  match sessionStorage w with
  | Some s => items s !! key
  | None => None
  end.

(** Both counters of the Loss Ledger hold values of [plain_numeral]. *)
Definition plain_ledger (w : World) : bool :=
  plain_numeral (persisted ISSUES_REPORTED_KEY w)
  && plain_numeral (persisted ITEMS_QUEUED_KEY w).

(** A stand-in for [JSON.stringify] on concrete worlds: it throws on a
    circular structure, as the host does; no property looks at the text it
    returns. *)
Definition example_stringify (p : Properties) : Result string :=
  match p with
  | PropObject ObjCircular =>
      Throw (ThrownError "TypeError" "Converting circular structure to JSON")
  | PropObject (ObjLiteral []) => Ret "{}"
  | PropObject (ObjLiteral (_ :: _)) => Ret "{...}"
  | PropNull => Ret "null"
  | PropString s => Ret s
  | PropUndefined => Ret "undefined"
  end.

(** Stand-ins for [Util.getExceptionName] and [Util.dump]. *)
Definition example_name (e : Thrown) : string :=
  match e with ThrownError name _ => name | ThrownValue _ => "Object" end.

Definition example_dump (e : Thrown) : string :=
  match e with ThrownError _ text => text | ThrownValue _ => "[object Object]" end.

(** Three message objects: a usual one, one with circular properties, one
    without text. *)
Definition example_heap : list InternalLogMessage :=
  [ {| message := Some "error!"; properties := PropObject (ObjLiteral []) |};
    {| message := Some "cyclic"; properties := PropObject ObjCircular |};
    {| message := None; properties := PropUndefined |} ].

Definition working_console : option Console :=
  Some {| warn := Returns; log := Returns |}.

Definition throwing_console : option Console :=
  Some {| warn := Throws (ThrownError "Error" "console.warn failed"); log := Returns |}.

Definition working_reporter : option AppInsights :=
  Some {| trackTrace := Returns; flush := Returns |}.

Definition failing_reporter : option AppInsights :=
  Some {| trackTrace := Throws (ThrownError "Error" "send failed"); flush := Returns |}.

(** What [setItem] throws when the storage is full or unavailable. *)
Definition quota_error : Thrown :=
  ThrownError "QuotaExceededError" "The quota has been exceeded.".

(** A world as the classes initialise it (empty queue, counter 0, Ledger
    disabled), for a given limit, modes and console. *)
Definition logging_world (limit : Z) (verbose debug : bool) (c : option Console) : World :=
  {| heap := example_heap;
     enableDebugExceptions := debug;
     verboseLogging := verbose;
     queue := [];
     MAX_INTERNAL_MESSAGE_LIMIT := limit;
     _messageCount := 0;
     console := c;
     console_lines := [];
     enabled := false;
     appInsights := None;
     reporter_calls := [];
     sessionStorage := None |}.

(** A world with the Ledger enabled: reporter [ai], stored items [m], and
    [fs] the faults of the coming storage calls. *)
Definition ledger_world (ai : option AppInsights) (m : gmap string string)
    (fs : list (option Thrown)) : World :=
  {| heap := example_heap;
     enableDebugExceptions := false;
     verboseLogging := false;
     queue := [];
     MAX_INTERNAL_MESSAGE_LIMIT := 25;
     _messageCount := 0;
     console := working_console;
     console_lines := [];
     enabled := true;
     appInsights := ai;
     reporter_calls := [];
     sessionStorage :=
       Some {| has_getItem := true; has_setItem := true; items := m; faults := fs |} |}.

(** Nine issues reported and three items lost; ten issues reported. *)
Definition nearly_full_ledger : World :=
  ledger_world working_reporter
    (<[ITEMS_QUEUED_KEY := "3"]> {[ ISSUES_REPORTED_KEY := "9" ]}) [].

Definition full_ledger : World :=
  ledger_world working_reporter
    (<[ITEMS_QUEUED_KEY := "3"]> {[ ISSUES_REPORTED_KEY := "10" ]}) [].

(** Three items lost, nothing reported yet, and a [trackTrace] that throws. *)
Definition failing_report_ledger : World :=
  ledger_world failing_reporter {[ ITEMS_QUEUED_KEY := "3" ]} [].

(** An enabled Ledger whose next storage call throws. *)
Definition quota_ledger : World :=
  ledger_world working_reporter {[ ITEMS_QUEUED_KEY := "3" ]} [Some quota_error].

(** ** Sequences of operations *)

(** Calls into the Diagnostic Log mixed with resets of the counter. *)
Inductive LogOp :=
| DoCall (c : Call)
| DoReset.

Definition perform_op (stringify : Properties -> Result string) (o : LogOp) : M unit :=
  match o with
  | DoCall c => perform stringify c
  | DoReset => resetInternalMessageCount
  end.

Fixpoint perform_ops (stringify : Properties -> Result string) (os : list LogOp) : M unit :=
  match os with
  | [] => ret tt
  | o :: os => let* _ := perform_op stringify o in perform_ops stringify os
  end.

(** The console has a method that [warnToConsole] calls and that returns. *)
Definition console_writes (w : World) : bool :=
  match console w with
  | Some c =>
      match warn c with
      | Returns => true
      | Throws _ => false
      | NotAFunction => match log c with Returns => true | _ => false end
      end
  | None => false
  end.

(** The line a report call writes for a message with text [text] and
    properties [p]; [None] when [JSON.stringify] throws. *)
Definition console_text (stringify : Properties -> Result string)
    (a : Actionability) (text : string) (p : Properties) : option string :=
  if typeof_object p then
    match stringify p with
    | Ret json => Some ((prefix_of a +:+ text) +:+ " properties: " +:+ json)
    | Throw _ => None
    end
  else Some (prefix_of a +:+ text).

(** Operations of the Loss Ledger, as a caller issues them. *)
Inductive LedgerOp :=
| OpReset
| OpIncrement
| OpDecrement (n : JsNum)
| OpReport
| OpGetIssuesReported
| OpGetNumberOfLostItems.

Definition ledger_op (stringify : Properties -> Result string)
    (name_of dump_of : Thrown -> string) (o : LedgerOp) : M unit :=
  match o with
  | OpReset => reset
  | OpIncrement => incrementItemsQueued
  | OpDecrement n => decrementItemsQueued n
  | OpReport => reportLostItems stringify name_of dump_of
  | OpGetIssuesReported => let* _ := getIssuesReported in ret tt
  | OpGetNumberOfLostItems => let* _ := getNumberOfLostItems in ret tt
  end.

Fixpoint ledger_ops (stringify : Properties -> Result string)
    (name_of dump_of : Thrown -> string) (os : list LedgerOp) : M unit :=
  match os with
  | [] => ret tt
  | o :: os =>
      let* _ := ledger_op stringify name_of dump_of o in
      ledger_ops stringify name_of dump_of os
  end.

Definition is_trackTrace (c : ReporterCall) : bool :=
  match c with CallTrackTrace _ => true | CallFlush => false end.

(** How many times [trackTrace] has been called. *)
Definition reports_sent (w : World) : nat :=
  length (filter (fun c => is_trackTrace c = true) (reporter_calls w)).

(** What the Loss Ledger never writes. *)
Definition log_part (w : World) :=
  (heap w, queue w, _messageCount w, log_settings w, console_lines w).

(** ** [Initialization]: the callback of [pollInteralLogs] *)

(** One call of [appInsightsInstance.trackTrace], with one or two arguments. *)
Inductive TraceCall :=
| TraceMessage (text : option string)
| TraceMessageProperties (text : option string) (p : Properties).

(** The call made for the queue entry [v]; [None] when reading
    [queue[i].properties] throws (the entry is null or undefined). *)
Definition trace_of (w : World) (v : Value) : option TraceCall :=
  match v with
  | VRef l =>
      let '(text, p) :=
        match heap w !! l with
        | Some o => (message o, properties o)
        | None => (None, PropUndefined)
        end in
      Some (if typeof_object p then TraceMessageProperties text p else TraceMessage text)
  | VUndefined | VNull => None
  end.

(** The loop over the entries: the calls made, and how the loop ends. *)
Fixpoint trace_entries (trackTrace : Method) (w : World) (entries : list Value)
  : list TraceCall * Result unit :=
  match entries with
  | [] => ([], Ret tt)
  | v :: rest =>
      match trace_of w v with
      | None => ([], Throw (ThrownError "TypeError" "Cannot read property 'properties'"))
      | Some call =>
          match trackTrace with
          | Returns =>
              let '(calls, r) := trace_entries trackTrace w rest in
              (call :: calls, r)
          | Throws e => ([call], Throw e)
          | NotAFunction => ([], Throw (ThrownError "TypeError" "not a function"))
          end
      end
  end.

(** The function that [pollInteralLogs] hands to [setInterval]: it returns
    the calls of [trackTrace] it made, its outcome and the world. *)
Definition pollInteralLogs_callback (appInsightsInstance : AppInsights) (w : World)
  : list TraceCall * (Result unit * World) :=
  let '(calls, r) := trace_entries (trackTrace appInsightsInstance) w (queue w) in
  match r with
  | Ret _ => (calls, (Ret tt, set_queue [] w))
  | Throw e => (calls, (Throw e, w))
  end.

(** ** [Initialization.emptyQueue] *)

(** [message.properties = p] *)
Definition write_properties (l : loc) (p : Properties) : M unit :=
  modify (fun w =>
    match heap w !! l with
    | Some o => set_heap (<[l := {| message := message o; properties := p |}]> (heap w)) w
    | None => w
    end).

(** [exception && typeof exception.toString === "function"] *)
Definition has_toString (e : Thrown) : bool :=
  match e with
  | ThrownValue VUndefined | ThrownValue VNull => false
  | ThrownValue (VRef _) | ThrownError _ _ => true
  end.

(** The queued calls one after the other, as the [for] loop runs them. *)
Fixpoint call_queued (calls : list (M unit)) : M unit :=
  match calls with
  | [] => ret tt
  | call :: calls => let* _ := call in call_queued calls
  end.

Section Snippet.

(** [exception.toString()] *)
Variable exception_toString : Thrown -> string.
Variable JSON_stringify : Properties -> Result string.

(** [snippet_queue] is [this.snippet.queue]: [Some] of the queued functions
    when it is an array, [None] otherwise; the result is its value after the
    call. *)
Definition emptyQueue (snippet_queue : option (list (M unit)))
  : M (option (list (M unit))) :=
  try_catch
    (match snippet_queue with
     | Some calls =>
         let* _ := call_queued calls in
         ret None
     | None => ret snippet_queue
     end)
    (fun exception =>
       let* message :=
         new_InternalLogMessage (Some "Failed to send queued telemetry") PropUndefined in
       let* _ :=
         if has_toString exception then
           write_properties message
             (PropObject (ObjLiteral [("exception", exception_toString exception)]))
         else ret tt in
       let* _ := throwInternalNonUserActionable JSON_stringify WARNING (VRef message) in
       ret snippet_queue).

End Snippet.

(** ** [Initialization.getDefaultConfig] *)

Module Config.

(** A number of the configuration: these are only compared, never computed
    with, so a finite value is a rational. *)
Inductive Number :=
| NotANumber
| Infinity (negative : bool)
| Finite (q : Q).

(** A setting that the snippet gives as a boolean or as a string. *)
Inductive Flag :=
| FlagUndefined
| FlagNull
| FlagBool (b : bool)
| FlagString (s : string).

(** The fields of [IConfig] that [getDefaultConfig] reads or writes; [None]
    is undefined. *)
Record IConfig := {
  instrumentationKey : option string;
  endpointUrl : option string;
  accountId : option string;
  appUserId : option string;
  sessionRenewalMs : option Number;
  sessionExpirationMs : option Number;
  maxBatchSizeInBytes : option Number;
  maxBatchInterval : option Number;
  enableDebug : Flag;
  disableExceptionTracking : Flag;
  disableTelemetry : Flag;
  verboseLogging : Flag;
  emitLineDelimitedJson : Flag;
  diagnosticLogInterval : option Number;
  autoTrackPageVisitTime : Flag;
  samplingPercentage : option Number;
  disableAjaxTracking : Flag;
  maxAjaxCallsPerView : option Number
}.

(** [<IConfig>{}] *)
Definition empty : IConfig :=
  {| instrumentationKey := None; endpointUrl := None; accountId := None;
     appUserId := None; sessionRenewalMs := None; sessionExpirationMs := None;
     maxBatchSizeInBytes := None; maxBatchInterval := None;
     enableDebug := FlagUndefined; disableExceptionTracking := FlagUndefined;
     disableTelemetry := FlagUndefined; verboseLogging := FlagUndefined;
     emitLineDelimitedJson := FlagUndefined; diagnosticLogInterval := None;
     autoTrackPageVisitTime := FlagUndefined; samplingPercentage := None;
     disableAjaxTracking := FlagUndefined; maxAjaxCallsPerView := None |}.

(** [isNaN(x)]: undefined converts to NaN. *)
Definition isNaN (x : option Number) : bool :=
  match x with
  | None | Some NotANumber => true
  | Some (Infinity _) | Some (Finite _) => false
  end.

(** [x > 0] *)
Definition positive (x : option Number) : bool :=
  match x with
  | Some (Finite q) => negb (Qle_bool q 0)
  | Some (Infinity negative) => negb negative
  | Some NotANumber | None => false
  end.

(** [x <= 0] *)
Definition at_most_zero (x : option Number) : bool :=
  match x with
  | Some (Finite q) => Qle_bool q 0
  | Some (Infinity negative) => negative
  | Some NotANumber | None => false
  end.

(** [x >= 100] *)
Definition at_least_hundred (x : option Number) : bool :=
  match x with
  | Some (Finite q) => Qle_bool 100 q
  | Some (Infinity negative) => negb negative
  | Some NotANumber | None => false
  end.

(** [!x] for a number: undefined, NaN and 0. *)
Definition falsy_number (x : option Number) : bool :=
  match x with
  | None | Some NotANumber => true
  | Some (Finite q) => Qeq_bool q 0
  | Some (Infinity _) => false
  end.

(** [!s] for a string: undefined and the empty string. *)
Definition falsy_string (s : option string) : bool :=
  match s with
  | None => true
  | Some s => if decide (s = "") then true else false
  end.

(** [x !== undefined && x !== null] *)
Definition is_given (x : Flag) : bool :=
  match x with
  | FlagUndefined | FlagNull => false
  | FlagBool _ | FlagString _ => true
  end.

Section Defaults.

(** [Util.stringToBoolOrDefault], which is not part of these files. *)
Variable stringToBoolOrDefault : Flag -> bool.

(** The source fills in the object it is given and returns it; here the
    filled-in record is returned. *)
Definition getDefaultConfig (config : option IConfig) : IConfig :=
  let config := match config with Some c => c | None => empty end in
  {| instrumentationKey := instrumentationKey config;
     endpointUrl :=
       if falsy_string (endpointUrl config)
       then Some "//dc.services.visualstudio.com/v2/track"
       else endpointUrl config;
     accountId := accountId config;
     appUserId := appUserId config;
     sessionRenewalMs := Some (Finite (30 * 60 * 1000));
     sessionExpirationMs := Some (Finite (24 * 60 * 60 * 1000));
     maxBatchSizeInBytes :=
       if positive (maxBatchSizeInBytes config)
       then maxBatchSizeInBytes config else Some (Finite 1000000);
     maxBatchInterval :=
       if negb (isNaN (maxBatchInterval config))
       then maxBatchInterval config else Some (Finite 15000);
     enableDebug := FlagBool (stringToBoolOrDefault (enableDebug config));
     disableExceptionTracking :=
       if is_given (disableExceptionTracking config)
       then FlagBool (stringToBoolOrDefault (disableExceptionTracking config))
       else FlagBool false;
     disableTelemetry := FlagBool (stringToBoolOrDefault (disableTelemetry config));
     verboseLogging := FlagBool (stringToBoolOrDefault (verboseLogging config));
     emitLineDelimitedJson :=
       FlagBool (stringToBoolOrDefault (emitLineDelimitedJson config));
     diagnosticLogInterval :=
       if falsy_number (diagnosticLogInterval config)
       then Some (Finite 10000) else diagnosticLogInterval config;
     autoTrackPageVisitTime :=
       FlagBool (stringToBoolOrDefault (autoTrackPageVisitTime config));
     samplingPercentage :=
       if isNaN (samplingPercentage config)
          || at_most_zero (samplingPercentage config)
          || at_least_hundred (samplingPercentage config)
       then Some (Finite 100) else samplingPercentage config;
     disableAjaxTracking :=
       if is_given (disableAjaxTracking config)
       then FlagBool (stringToBoolOrDefault (disableAjaxTracking config))
       else FlagBool false;
     maxAjaxCallsPerView :=
       if negb (isNaN (maxAjaxCallsPerView config))
       then maxAjaxCallsPerView config else Some (Finite 500) |}.

End Defaults.

(** A stand-in for [Util.stringToBoolOrDefault] on concrete configurations:
    a boolean is itself, the string "true" is true. *)
Definition example_stringToBool (x : Flag) : bool :=
  match x with
  | FlagBool b => b
  | FlagString s => if decide (s = "true") then true else false
  | FlagUndefined | FlagNull => false
  end.

End Config.

(** ** Definitions for the further properties *)

(** A computation that leaves the Diagnostic Log as it is. *)
Definition ledger_only {A} (c : M A) : Prop :=
  forall w, log_part (snd (c w)) = log_part w.

(** What the reporter throws during a report: [trackTrace] throws it, or
    [trackTrace] returns and [flush] throws it. *)
Definition reporter_error (w : World) : option Thrown :=
  match appInsights w with
  | Some ai =>
      match trackTrace ai with
      | Throws e => Some e
      | Returns => match flush ai with Throws e => Some e | _ => None end
      | NotAFunction => None
      end
  | None => None
  end.

(** [v] is an object, so that its fields can be read. *)
Definition is_object (v : Value) : bool :=
  match v with VRef _ => true | VUndefined | VNull => false end.

(** A log with limit 2 after two CRITICAL messages: two entries and the
    sentinel are queued, and the counter is at the limit. *)
Definition throttled_world : World :=
  snd (perform_all example_stringify
         [Direct CRITICAL (VRef 0%nat); Direct CRITICAL (VRef 0%nat)]
         (logging_world 2 false false working_console)).

(** Two issues reported, nothing lost, and a reporter that would throw. *)
Definition failing_reporter_no_loss : World :=
  ledger_world failing_reporter {[ ISSUES_REPORTED_KEY := "2" ]} [].

(** Instances for the poll: one whose [trackTrace] returns, one whose
    [trackTrace] throws. *)
Definition example_sink : AppInsights := {| trackTrace := Returns; flush := Returns |}.

Definition failing_sink : AppInsights :=
  {| trackTrace := Throws (ThrownError "Error" "send failed"); flush := Returns |}.

(** A stand-in for [exception.toString()]. *)
Definition example_toString (e : Thrown) : string :=
  match e with
  | ThrownError name text => name +:+ ": " +:+ text
  | ThrownValue _ => "[object Object]"
  end.

(** A configuration with several settings out of range. *)
Definition example_config : Config.IConfig :=
  {| Config.instrumentationKey := Some "key";
     Config.endpointUrl := Some "";
     Config.accountId := None;
     Config.appUserId := None;
     Config.sessionRenewalMs := Some (Config.Finite 5);
     Config.sessionExpirationMs := None;
     Config.maxBatchSizeInBytes := Some (Config.Finite (-1));
     Config.maxBatchInterval := Some (Config.Finite (-5));
     Config.enableDebug := Config.FlagString "true";
     Config.disableExceptionTracking := Config.FlagNull;
     Config.disableTelemetry := Config.FlagUndefined;
     Config.verboseLogging := Config.FlagBool true;
     Config.emitLineDelimitedJson := Config.FlagString "no";
     Config.diagnosticLogInterval := Some (Config.Finite 0);
     Config.autoTrackPageVisitTime := Config.FlagUndefined;
     Config.samplingPercentage := Some (Config.Finite (25 # 2));
     Config.disableAjaxTracking := Config.FlagString "true";
     Config.maxAjaxCallsPerView := Some Config.NotANumber |}.

(** As [failing_report_ledger], with debug exceptions on. *)
Definition failing_report_ledger_debug : World :=
  {| heap := example_heap;
     enableDebugExceptions := true;
     verboseLogging := false;
     queue := [];
     MAX_INTERNAL_MESSAGE_LIMIT := 25;
     _messageCount := 0;
     console := working_console;
     console_lines := [];
     enabled := true;
     appInsights := failing_reporter;
     reporter_calls := [];
     sessionStorage :=
       Some {| has_getItem := true; has_setItem := true;
               items := {[ ITEMS_QUEUED_KEY := "3" ]}; faults := [] |} |}.

(** ** Facts about the monad *)


Lemma bind_gets {A B} (f : World -> A) (k : A -> M B) w :
  bind (gets f) k w = k (f w) w.
Proof. reflexivity. Qed.

Lemma bind_modify {B} (f : World -> World) (k : unit -> M B) w :
  bind (modify f) k w = k tt (f w).
Proof. reflexivity. Qed.

Lemma bind_run {A B} (c : M A) (k : A -> M B) w r w' :
  c w = (r, w') ->
  bind c k w = match r with Ret a => k a w' | Throw e => (Throw e, w') end.
Proof. unfold bind. intros ->. reflexivity. Qed.

Lemma warnToConsole_cases text w :
  warnToConsole text w = (Ret tt, w) \/
  warnToConsole text w = (Ret tt, set_console_lines (console_lines w ++ [text]) w) \/
  exists e, warnToConsole text w = (Throw e, w).
Proof.
  unfold warnToConsole. rewrite bind_gets.
  destruct (console w) as [[wn lg]|]; simpl; [|by left].
  destruct wn; simpl; [destruct lg; simpl| |]; eauto.
Qed.

Lemma warnToConsole_quiet text w :
  console_quiet w = true ->
  warnToConsole text w = (Ret tt, w) \/
  warnToConsole text w = (Ret tt, set_console_lines (console_lines w ++ [text]) w).
Proof.
  unfold warnToConsole, console_quiet. rewrite bind_gets.
  destruct (console w) as [[wn lg]|]; simpl; [|by left].
  destruct wn; simpl; [destruct lg; simpl| |]; eauto; discriminate.
Qed.

Lemma warnToConsole_frame text w :
  log_state (snd (warnToConsole text w)) = log_state w.
Proof.
  destruct (warnToConsole_cases text w) as [-> | [-> | [e ->]]]; reflexivity.
Qed.

Lemma logInternalMessage_unfold sev v w :
  logInternalMessage sev v w =
  if MAX_INTERNAL_MESSAGE_LIMIT w <=? _messageCount w then (Ret tt, w)
  else if verboseLogging w || is_CRITICAL sev then
    let w1 := set_count (_messageCount w + 1) (set_queue (queue w ++ [v]) w) in
    if _messageCount w + 1 =? MAX_INTERNAL_MESSAGE_LIMIT w then
      warnToConsole
        (AiNonUserActionablePrefix
         +:+ "Internal events throttle limit per PageView reached for this app.")
        (set_queue (queue w1 ++ [VRef (length (heap w))])
           (set_heap (heap w ++ [throttleMessage]) w1))
    else (Ret tt, w1)
  else (Ret tt, w).
Proof.
  unfold logInternalMessage, _areInternalMessagesThrottled.
  rewrite bind_gets.
  destruct (MAX_INTERNAL_MESSAGE_LIMIT w <=? _messageCount w) eqn:Hthr; [reflexivity|].
  rewrite bind_gets.
  destruct (verboseLogging w || is_CRITICAL sev) eqn:Hq.
  - cbn -[Z.add Z.eqb warnToConsole String.append].
    destruct (_messageCount w + 1 =? MAX_INTERNAL_MESSAGE_LIMIT w); reflexivity.
  - cbn -[Z.add Z.eqb warnToConsole String.append].
    apply Z.leb_gt in Hthr.
    destruct (_messageCount w =? MAX_INTERNAL_MESSAGE_LIMIT w) eqn:E; [|reflexivity].
    apply Z.eqb_eq in E. lia.
Qed.

Section LogSteps.

Variable js : Properties -> Result string.

Lemma record_unfold a sev l o text w :
  enableDebugExceptions w = false ->
  heap w !! l = Some o ->
  message o = Some text ->
  record js a sev (VRef l) w =
  bind (if typeof_object (properties o) then
          bind (stringify js (properties o))
               (fun json => warnToConsole
                  ((prefix_of a +:+ text) +:+ " properties: " +:+ json))
        else warnToConsole (prefix_of a +:+ text))
       (fun _ => logInternalMessage sev (VRef l))
       (prefixed_world a l o text w).
Proof.
  intros Hd Hl Hm.
  assert (Hlt : (l < length (heap w))%nat) by (eapply lookup_lt_Some; eauto).
  destruct a; unfold record, throwInternalUserActionable, throwInternalNonUserActionable;
    rewrite bind_gets, Hd; unfold read_message; rewrite bind_gets, Hl, Hm;
    unfold write_message; rewrite bind_modify, Hl;
    unfold read_properties; rewrite bind_gets; cbn [heap set_heap];
    rewrite list_lookup_insert_eq by exact Hlt; reflexivity.
Qed.

Lemma record_decompose a sev v w :
  (enableDebugExceptions w = true /\
   record js a sev v w = (Throw (ThrownValue v), w))
  \/ (enableDebugExceptions w = false /\ degenerate w v = true /\
      record js a sev v w = (Ret tt, w))
  \/ exists l o text,
       v = VRef l /\ enableDebugExceptions w = false /\
       heap w !! l = Some o /\ message o = Some text /\
       ((exists e w1, record js a sev v w = (Throw e, w1) /\
                      log_state w1 = log_state (prefixed_world a l o text w) /\
                      console_quiet w && loggable js o = false)
        \/ (exists w1, log_state w1 = log_state (prefixed_world a l o text w) /\
                       record js a sev v w = logInternalMessage sev v w1)).
Proof.
  destruct (enableDebugExceptions w) eqn:Hd.
  { left. split; [reflexivity|].
    destruct a; unfold record, throwInternalUserActionable, throwInternalNonUserActionable;
      rewrite bind_gets, Hd; reflexivity. }
  right.
  destruct v as [| |l].
  1,2: left; split; [reflexivity|]; split; [reflexivity|];
       destruct a; unfold record, throwInternalUserActionable, throwInternalNonUserActionable;
       rewrite bind_gets, Hd; reflexivity.
  destruct (heap w !! l) as [o|] eqn:Hl.
  2: { left. split; [reflexivity|]. split; [simpl; by rewrite Hl|].
       destruct a; unfold record, throwInternalUserActionable, throwInternalNonUserActionable;
         rewrite bind_gets, Hd; unfold read_message; rewrite bind_gets, Hl; reflexivity. }
  destruct (message o) as [text|] eqn:Hm.
  2: { left. split; [reflexivity|]. split; [simpl; rewrite Hl, Hm; reflexivity|].
       destruct a; unfold record, throwInternalUserActionable, throwInternalNonUserActionable;
         rewrite bind_gets, Hd; unfold read_message; rewrite bind_gets, Hl, Hm; reflexivity. }
  right. exists l, o, text. repeat (split; [done|]).
  rewrite (record_unfold a sev l o text w Hd Hl Hm).
  set (w1 := prefixed_world a l o text w).
  assert (Hq : console_quiet w1 = console_quiet w) by reflexivity.
  unfold loggable. rewrite Hm. simpl bool_decide.
  assert (Hwarn : forall t,
            (exists w2, log_state w2 = log_state w1 /\
                        bind (warnToConsole t) (fun _ => logInternalMessage sev (VRef l)) w1
                        = logInternalMessage sev (VRef l) w2)
            \/ (exists e, bind (warnToConsole t) (fun _ => logInternalMessage sev (VRef l)) w1
                          = (Throw e, w1) /\ console_quiet w = false)).
  { intros t. unfold bind.
    destruct (warnToConsole_cases t w1) as [E | [E | [e E]]]; rewrite E.
    - left. by exists w1.
    - left. eexists. split; [|reflexivity]. reflexivity.
    - right. exists e. split; [done|].
      destruct (console_quiet w) eqn:Hcq; [|done].
      destruct (warnToConsole_quiet t w1 Hq) as [E' | E']; congruence. }
  destruct (typeof_object (properties o)).
  - unfold stringify. unfold bind at 2.
    destruct (js (properties o)) as [json|e]; simpl is_Ret.
    + destruct (Hwarn ((prefix_of a +:+ text) +:+ " properties: " +:+ json))
        as [(w2 & Hw2 & E) | (e & E & Hcq)].
      * right. exists w2. split; [done|]. rewrite <- E. reflexivity.
      * left. exists e, w1. split; [rewrite <- E; reflexivity|]. split; [done|].
        by rewrite Hcq.
    + left. exists e, w1. split; [done|]. split; [done|]. apply andb_false_r.
  - destruct (Hwarn (prefix_of a +:+ text)) as [(w2 & Hw2 & E) | (e & E & Hcq)].
    + right. exists w2. done.
    + left. exists e, w1. split; [done|]. split; [done|]. by rewrite Hcq.
Qed.

Lemma logInternalMessage_cases sev v w :
  let w' := snd (logInternalMessage sev v w) in
  log_settings w' = log_settings w /\ ledger_part w' = ledger_part w /\
  ((heap w' = heap w /\ queue w' = queue w /\ _messageCount w' = _messageCount w /\
    (MAX_INTERNAL_MESSAGE_LIMIT w <= _messageCount w \/
     verboseLogging w || is_CRITICAL sev = false))
   \/ (_messageCount w < MAX_INTERNAL_MESSAGE_LIMIT w /\
       verboseLogging w || is_CRITICAL sev = true /\
       _messageCount w' = _messageCount w + 1 /\
       _messageCount w + 1 <> MAX_INTERNAL_MESSAGE_LIMIT w /\
       heap w' = heap w /\ queue w' = queue w ++ [v])
   \/ (_messageCount w < MAX_INTERNAL_MESSAGE_LIMIT w /\
       verboseLogging w || is_CRITICAL sev = true /\
       _messageCount w' = _messageCount w + 1 /\
       _messageCount w + 1 = MAX_INTERNAL_MESSAGE_LIMIT w /\
       heap w' = heap w ++ [throttleMessage] /\
       queue w' = queue w ++ [v; VRef (length (heap w))])).
Proof.
  intros w'. subst w'. rewrite logInternalMessage_unfold.
  destruct (MAX_INTERNAL_MESSAGE_LIMIT w <=? _messageCount w) eqn:Hthr.
  { apply Z.leb_le in Hthr. simpl. repeat split. left. repeat split. by left. }
  apply Z.leb_gt in Hthr.
  destruct (verboseLogging w || is_CRITICAL sev) eqn:Hq.
  2: { simpl. repeat split. left. repeat split. by right. }
  cbv zeta.
  destruct (_messageCount w + 1 =? MAX_INTERNAL_MESSAGE_LIMIT w) eqn:Hlim.
  - apply Z.eqb_eq in Hlim.
    match goal with |- context [warnToConsole ?t ?w0] =>
      pose proof (warnToConsole_frame t w0) as Hf;
      destruct (snd (warnToConsole t w0)) eqn:E end.
    unfold log_state, log_settings, ledger_part in *; simpl in *.
    inversion Hf; subst. repeat split.
    right. right. repeat split; try done. by rewrite <- app_assoc.
  - apply Z.eqb_neq in Hlim. simpl. repeat split.
    right. left. repeat split; done.
Qed.

Lemma logInternalMessage_quiet sev v w :
  console_quiet w = true -> fst (logInternalMessage sev v w) = Ret tt.
Proof.
  intros Hq. rewrite logInternalMessage_unfold.
  repeat match goal with |- context [if ?b then _ else _] => destruct b end;
    try reflexivity.
  cbv zeta.
  match goal with |- context [warnToConsole ?t ?w0] =>
    destruct (warnToConsole_quiet t w0 Hq) as [-> | ->] end; reflexivity.
Qed.

Lemma log_state_eq w1 w2 :
  log_state w1 = log_state w2 ->
  heap w1 = heap w2 /\ queue w1 = queue w2 /\ _messageCount w1 = _messageCount w2 /\
  log_settings w1 = log_settings w2 /\ ledger_part w1 = ledger_part w2.
Proof.
  unfold log_state. intros H. injection H. intros.
  repeat split; try assumption; unfold log_settings, ledger_part in *; congruence.
Qed.

Lemma log_state_console_quiet w w1 :
  log_state w1 = log_state w -> console_quiet w1 = console_quiet w.
Proof.
  unfold log_state, log_settings, console_quiet. intros H.
  inversion H as [[Hh Hq Hc Hd Hv Hcon Hl Hled]]. by rewrite Hcon.
Qed.

Lemma well_formed_lt w v :
  well_formed js w v = true -> exists l, v = VRef l /\ (l < length (heap w))%nat.
Proof.
  destruct v as [| |l]; simpl; try discriminate.
  destruct (heap w !! l) eqn:E; [|discriminate].
  intros _. exists l. split; [done|]. eapply lookup_lt_Some; eauto.
Qed.

(** A recording call reaches [logInternalMessage] when the console is
    quiet; on the way only the text of its own message has changed. *)
Lemma perform_reaches_log c w :
  enableDebugExceptions w = false ->
  console_quiet w = true ->
  records js w c = true ->
  exists sev w1,
    perform js c w = logInternalMessage sev (call_value c) w1 /\
    verboseLogging w || is_CRITICAL sev = true /\
    queue w1 = queue w /\ _messageCount w1 = _messageCount w /\
    log_settings w1 = log_settings w /\
    length (heap w1) = length (heap w) /\
    (forall v, well_formed js w v = true -> well_formed js w1 v = true) /\
    (forall l o, heap w !! l = Some o -> call_value c <> VRef l -> heap w1 !! l = Some o).
Proof.
  intros Hd Hq Hrec.
  destruct c as [a sev v | sev v | text]; simpl in Hrec; [| |discriminate];
    apply andb_true_iff in Hrec as [Hsev Hwf].
  2: { exists sev, w. simpl. repeat split; auto. }
  exists sev.
  destruct (record_decompose a sev v w)
    as [[Hd' _] | [(_ & Hdeg & _) | (l & o & text & -> & _ & Hl & Hm & Hcase)]].
  - congruence.
  - exfalso. destruct v as [| |l]; simpl in *; try discriminate.
    destruct (heap w !! l) as [o|] eqn:Hl; [|discriminate].
    unfold loggable in Hwf. apply andb_true_iff in Hwf as [Hs _].
    apply bool_decide_eq_true in Hs. apply bool_decide_eq_true in Hdeg.
    rewrite Hdeg in Hs. by destruct Hs.
  - simpl in Hwf. rewrite Hl in Hwf.
    destruct Hcase as [(e & w1 & _ & _ & Hbad) | (w1 & Hw1 & E)].
    { rewrite Hq, Hwf in Hbad. discriminate. }
    exists w1. simpl perform. simpl call_value. split; [exact E|]. split; [exact Hsev|].
    assert (Hlt : (l < length (heap w))%nat) by (eapply lookup_lt_Some; eauto).
    apply log_state_eq in Hw1 as (Hh & Hqu & Hc & Hset & _).
    unfold prefixed_world in *. cbn [heap set_heap] in Hh.
    split; [exact Hqu|]. split; [exact Hc|]. split; [exact Hset|].
    split; [|split].
    + by rewrite Hh, length_insert.
    + intros v Hv. destruct v as [| |l']; simpl in *; try discriminate.
      rewrite Hh. destruct (decide (l' = l)) as [->|Hne].
      * rewrite list_lookup_insert_eq by exact Hlt.
        unfold loggable in *. simpl. rewrite Hm in Hwf. simpl in Hwf. exact Hwf.
      * rewrite list_lookup_insert_ne by congruence. exact Hv.
    + intros l' o' Hl' Hne. rewrite Hh.
      rewrite list_lookup_insert_ne; [exact Hl'|]. congruence.
Qed.

Lemma prefixed_world_eq a l o text w w1 :
  log_state w1 = log_state (prefixed_world a l o text w) ->
  heap w1 = <[l := {| message := Some (prefix_of a +:+ text);
                      properties := properties o |}]> (heap w) /\
  queue w1 = queue w /\ _messageCount w1 = _messageCount w /\
  log_settings w1 = log_settings w /\ ledger_part w1 = ledger_part w.
Proof. intros H. apply log_state_eq in H. exact H. Qed.

(** What one call, of any kind and in any world, does to the queue and to
    the counter. *)
Lemma perform_cases c w :
  let w' := snd (perform js c w) in
  log_settings w' = log_settings w /\ ledger_part w' = ledger_part w /\
  ((queue w' = queue w /\ _messageCount w' = _messageCount w)
   \/ (_messageCount w < MAX_INTERNAL_MESSAGE_LIMIT w /\
       _messageCount w' = _messageCount w + 1 /\
       _messageCount w' <> MAX_INTERNAL_MESSAGE_LIMIT w /\
       queue w' = queue w ++ [call_value c])
   \/ (_messageCount w < MAX_INTERNAL_MESSAGE_LIMIT w /\
       _messageCount w' = _messageCount w + 1 /\
       _messageCount w' = MAX_INTERNAL_MESSAGE_LIMIT w /\
       queue w' = queue w ++ [call_value c; VRef (length (heap w))])).
Proof.
  assert (Hlog : forall sev v w1,
    queue w1 = queue w -> _messageCount w1 = _messageCount w ->
    log_settings w1 = log_settings w -> ledger_part w1 = ledger_part w ->
    length (heap w1) = length (heap w) ->
    let w' := snd (logInternalMessage sev v w1) in
    log_settings w' = log_settings w /\ ledger_part w' = ledger_part w /\
    ((queue w' = queue w /\ _messageCount w' = _messageCount w)
     \/ (_messageCount w < MAX_INTERNAL_MESSAGE_LIMIT w /\
         _messageCount w' = _messageCount w + 1 /\
         _messageCount w' <> MAX_INTERNAL_MESSAGE_LIMIT w /\
         queue w' = queue w ++ [v])
     \/ (_messageCount w < MAX_INTERNAL_MESSAGE_LIMIT w /\
         _messageCount w' = _messageCount w + 1 /\
         _messageCount w' = MAX_INTERNAL_MESSAGE_LIMIT w /\
         queue w' = queue w ++ [v; VRef (length (heap w))]))).
  { intros sev v w1 Hq Hc Hs Hled Hlen w'. subst w'.
    assert (Hlim : MAX_INTERNAL_MESSAGE_LIMIT w1 = MAX_INTERNAL_MESSAGE_LIMIT w)
      by (unfold log_settings in Hs; congruence).
    destruct (logInternalMessage_cases sev v w1) as (Hs' & Hl' & Hcase).
    split; [congruence|]. split; [congruence|].
    rewrite Hq, Hc, Hlim, Hlen in Hcase.
    destruct Hcase as [(_ & Hq' & Hc' & _) | [(H1 & _ & H2 & H3 & _ & H4) | (H1 & _ & H2 & H3 & _ & H4)]].
    - left. done.
    - right. left. repeat split; try done. lia.
    - right. right. repeat split; try done. lia. }
  destruct c as [a sev v | sev v | text]; simpl perform; simpl call_value.
  - destruct (record_decompose a sev v w)
      as [[_ E] | [(_ & _ & E) | (l & o & text & -> & _ & Hl & Hm & Hcase)]].
    + rewrite E. simpl. repeat split. by left.
    + rewrite E. simpl. repeat split. by left.
    + destruct Hcase as [(e & w1 & E & Hw1 & _) | (w1 & Hw1 & E)];
        apply prefixed_world_eq in Hw1 as (Hh & Hq & Hc & Hs & Hled); rewrite E.
      * simpl. repeat split; try done. by left.
      * apply Hlog; try done. by rewrite Hh, length_insert.
  - by apply Hlog.
  - pose proof (warnToConsole_frame text w) as Hf.
    apply log_state_eq in Hf as (_ & Hq & Hc & Hs & Hled).
    simpl. repeat split; try done. by left.
Qed.

(** Once the counter has reached the limit, no call queues anything. *)
Lemma throttled_perform c w :
  MAX_INTERNAL_MESSAGE_LIMIT w <= _messageCount w ->
  let w' := snd (perform js c w) in
  queue w' = queue w /\ _messageCount w' = _messageCount w /\
  MAX_INTERNAL_MESSAGE_LIMIT w' = MAX_INTERNAL_MESSAGE_LIMIT w.
Proof.
  intros Hthr w'. subst w'.
  destruct (perform_cases c w) as (Hs & _ & Hcase).
  assert (MAX_INTERNAL_MESSAGE_LIMIT (snd (perform js c w)) = MAX_INTERNAL_MESSAGE_LIMIT w)
    by (unfold log_settings in Hs; congruence).
  destruct Hcase as [(? & ?) | [(? & _) | (? & _)]]; [done | lia | lia].
Qed.

Lemma perform_all_cons c cs w :
  perform_all js (c :: cs) w =
  match perform js c w with
  | (Ret _, w1) => perform_all js cs w1
  | (Throw e, w1) => (Throw e, w1)
  end.
Proof. reflexivity. Qed.

Lemma throttled_perform_all cs w :
  MAX_INTERNAL_MESSAGE_LIMIT w <= _messageCount w ->
  let w' := snd (perform_all js cs w) in
  queue w' = queue w /\ _messageCount w' = _messageCount w /\
  MAX_INTERNAL_MESSAGE_LIMIT w' = MAX_INTERNAL_MESSAGE_LIMIT w.
Proof.
  revert w. induction cs as [|c cs IH]; intros w Hthr; [done|].
  cbv zeta. rewrite perform_all_cons.
  destruct (throttled_perform c w Hthr) as (Hq & Hc & Hl).
  destruct (perform js c w) as [[[]|e] w1]; simpl in *; [|done].
  destruct (IH w1) as (Hq' & Hc' & Hl'); [lia|].
  repeat split; congruence.
Qed.

(** Over any sequence of calls without a reset, the queue grows by the
    increase of the counter, plus one for the sentinel when the counter
    reaches the limit on the way. *)
Lemma queue_growth cs w :
  let w' := snd (perform_all js cs w) in
  let L := MAX_INTERNAL_MESSAGE_LIMIT w in
  MAX_INTERNAL_MESSAGE_LIMIT w' = L /\
  _messageCount w <= _messageCount w' /\
  (_messageCount w < L -> _messageCount w' <= L) /\
  (L <= _messageCount w -> _messageCount w' = _messageCount w) /\
  Z.of_nat (length (queue w')) =
    Z.of_nat (length (queue w)) + (_messageCount w' - _messageCount w)
    + (if (_messageCount w <? L) && (_messageCount w' =? L) then 1 else 0).
Proof.
  revert w. induction cs as [|c cs IH]; intros w; cbv zeta.
  - simpl. repeat split; try lia.
    destruct (_messageCount w <? _) eqn:E1, (_messageCount w =? _) eqn:E2; simpl; lia.
  - rewrite perform_all_cons.
    destruct (perform_cases c w) as (Hs & _ & Hcase).
    assert (Hl : MAX_INTERNAL_MESSAGE_LIMIT (snd (perform js c w))
                 = MAX_INTERNAL_MESSAGE_LIMIT w)
      by (unfold log_settings in Hs; congruence).
    destruct (perform js c w) as [[[]|e] w1]; simpl in Hl, Hcase |- *.
    + specialize (IH w1). cbv zeta in IH. rewrite Hl in IH.
      destruct IH as (IH1 & IH2 & IH3 & IH4 & IH5).
      set (L := MAX_INTERNAL_MESSAGE_LIMIT w) in *.
      set (w' := snd (perform_all js cs w1)) in *.
      destruct Hcase as [(Hq & Hc) | [(H1 & H2 & H3 & Hq) | (H1 & H2 & H3 & Hq)]];
        rewrite Hq in IH5; try rewrite !length_app in IH5; simpl length in IH5;
        repeat split; try lia.
      * rewrite IH5, Hc. lia.
      * rewrite IH5.
        destruct (_messageCount w1 <? L) eqn:E1, (_messageCount w' =? L) eqn:E2,
                 (_messageCount w <? L) eqn:E3; simpl; lia.
      * rewrite IH5.
        destruct (_messageCount w1 <? L) eqn:E1, (_messageCount w' =? L) eqn:E2,
                 (_messageCount w <? L) eqn:E3; simpl; lia.
    + set (L := MAX_INTERNAL_MESSAGE_LIMIT w) in *.
      destruct Hcase as [(Hq & Hc) | [(H1 & H2 & H3 & Hq) | (H1 & H2 & H3 & Hq)]];
        rewrite Hq; try rewrite !length_app; simpl length;
        repeat split; try lia;
        destruct (_messageCount w <? L) eqn:E3, (_messageCount w1 =? L) eqn:E2;
        simpl; lia.
Qed.

(** One recording call with a quiet console. *)
Lemma perform_records c w :
  enableDebugExceptions w = false ->
  console_quiet w = true ->
  records js w c = true ->
  exists w',
    perform js c w = (Ret tt, w') /\
    log_settings w' = log_settings w /\
    (forall v, well_formed js w v = true -> well_formed js w' v = true) /\
    (forall l o, heap w !! l = Some o -> call_value c <> VRef l -> heap w' !! l = Some o) /\
    ((MAX_INTERNAL_MESSAGE_LIMIT w <= _messageCount w /\
      queue w' = queue w /\ _messageCount w' = _messageCount w /\
      length (heap w') = length (heap w))
     \/ (_messageCount w + 1 < MAX_INTERNAL_MESSAGE_LIMIT w /\
         queue w' = queue w ++ [call_value c] /\
         _messageCount w' = _messageCount w + 1 /\
         length (heap w') = length (heap w))
     \/ (_messageCount w + 1 = MAX_INTERNAL_MESSAGE_LIMIT w /\
         queue w' = queue w ++ [call_value c; VRef (length (heap w))] /\
         _messageCount w' = _messageCount w + 1 /\
         heap w' !! length (heap w) = Some throttleMessage /\
         length (heap w') = S (length (heap w)))).
Proof.
  intros Hd Hq Hrec.
  destruct (perform_reaches_log c w Hd Hq Hrec)
    as (sev & w1 & E & Hsev & Hqu & Hc & Hs & Hlen & Hwf & Hfr).
  assert (Hq1 : console_quiet w1 = true).
  { unfold console_quiet in *. unfold log_settings in Hs.
    replace (console w1) with (console w) by congruence. exact Hq. }
  pose proof (logInternalMessage_quiet sev (call_value c) w1 Hq1) as Hret.
  destruct (logInternalMessage_cases sev (call_value c) w1) as (Hs' & _ & Hcase).
  rewrite <- E in Hret, Hs', Hcase.
  destruct (perform js c w) as [r w'] eqn:Ew. simpl in Hret, Hs', Hcase. subst r.
  exists w'. split; [reflexivity|]. split; [congruence|].
  assert (Hv : verboseLogging w1 = verboseLogging w)
    by (unfold log_settings in Hs; congruence).
  assert (Hl : MAX_INTERNAL_MESSAGE_LIMIT w1 = MAX_INTERNAL_MESSAGE_LIMIT w)
    by (unfold log_settings in Hs; congruence).
  rewrite Hv, Hl, Hqu, Hc, Hlen in Hcase.
  destruct Hcase as [(Hh & Hq' & Hc' & Hwhy)
                    | [(H1 & _ & H2 & H3 & Hh & Hq') | (H1 & _ & H2 & H3 & Hh & Hq')]].
  - destruct Hwhy as [Hthr | Hno]; [|congruence].
    split; [intros v Hv'; specialize (Hwf v Hv'); unfold well_formed in *; by rewrite Hh|].
    split; [intros l o ? ?; rewrite Hh; by apply Hfr|]. left. rewrite Hh. done.
  - split; [intros v Hv'; specialize (Hwf v Hv'); unfold well_formed in *; by rewrite Hh|].
    split; [intros l o ? ?; rewrite Hh; by apply Hfr|].
    right. left. rewrite Hh. repeat split; try done. lia.
  - split; [|split].
    + intros v Hv'. specialize (Hwf v Hv').
      destruct v as [| |l]; simpl in *; try discriminate.
      rewrite Hh. destruct (heap w1 !! l) eqn:El; [|discriminate].
      by rewrite (lookup_app_l_Some _ _ _ _ El).
    + intros l o Hl' Hne. rewrite Hh. apply lookup_app_l_Some. by apply Hfr.
    + right. right. repeat split; try done.
      * rewrite Hh, <- Hlen. by rewrite list_lookup_middle.
      * rewrite Hh, length_app. simpl. lia.
Qed.

Lemma records_not_ref w c l :
  records js w c = true -> (length (heap w) <= l)%nat -> call_value c <> VRef l.
Proof.
  intros Hrec Hle.
  destruct c as [a sev v | sev v | text]; simpl in *; [| |discriminate];
    apply andb_true_iff in Hrec as [_ Hwf];
    apply well_formed_lt in Hwf as (l' & -> & Hlt); intros [= ->]; lia.
Qed.

Lemma records_mono w w1 cs :
  log_settings w1 = log_settings w ->
  (forall v, well_formed js w v = true -> well_formed js w1 v = true) ->
  forallb (records js w) cs = true -> forallb (records js w1) cs = true.
Proof.
  intros Hs Hwf. rewrite !forallb_forall. intros H c Hin. specialize (H c Hin).
  assert (Hv : verboseLogging w1 = verboseLogging w)
    by (unfold log_settings in Hs; congruence).
  destruct c as [a sev v | sev v | text]; simpl in *; [| |discriminate];
    apply andb_true_iff in H as [H1 H2]; rewrite Hv, H1; simpl; by apply Hwf.
Qed.

(** A sequence of recording calls with a quiet console: the messages are
    queued in order while the counter is under the limit, then the sentinel,
    then nothing. *)
Lemma perform_all_records cs : forall w,
  enableDebugExceptions w = false ->
  console_quiet w = true ->
  forallb (records js w) cs = true ->
  let room := Z.to_nat (MAX_INTERNAL_MESSAGE_LIMIT w - _messageCount w) in
  exists w',
    perform_all js cs w = (Ret tt, w') /\
    log_settings w' = log_settings w /\
    queue w' = queue w ++ take room (map call_value cs)
               ++ (if (0 <? room)%nat && (room <=? length cs)%nat
                   then [VRef (length (heap w))] else []) /\
    _messageCount w' = _messageCount w + Z.of_nat (min room (length cs)) /\
    ((0 < room <= length cs)%nat -> heap w' !! length (heap w) = Some throttleMessage) /\
    (forall l o, heap w !! l = Some o ->
                 Forall (fun c => call_value c <> VRef l) cs -> heap w' !! l = Some o).
Proof.
  induction cs as [|c cs IH]; intros w Hd Hq Hall room.
  { exists w. simpl. rewrite take_nil.
    assert (Hno : (0 <? room)%nat && (room <=? 0)%nat = false)
      by (destruct room; reflexivity).
    rewrite Hno, !app_nil_r, Nat.min_0_r.
    repeat split; try done; try lia. }
  simpl in Hall. apply andb_true_iff in Hall as [Hc Hall].
  destruct (perform_records c w Hd Hq Hc) as (w1 & E & Hs & Hwf & Hfr & Hcase).
  assert (Hd1 : enableDebugExceptions w1 = false)
    by (unfold log_settings in Hs; congruence).
  assert (Hq1 : console_quiet w1 = true).
  { unfold console_quiet in *. unfold log_settings in Hs.
    replace (console w1) with (console w) by congruence. exact Hq. }
  assert (Hl1 : MAX_INTERNAL_MESSAGE_LIMIT w1 = MAX_INTERNAL_MESSAGE_LIMIT w)
    by (unfold log_settings in Hs; congruence).
  pose proof (records_mono w w1 cs Hs Hwf Hall) as Hall1.
  destruct (IH w1 Hd1 Hq1 Hall1) as (w' & E' & Hs' & Hqueue & Hcount & Hsent & Hframe).
  exists w'. rewrite perform_all_cons, E.
  split; [exact E'|]. split; [congruence|].
  rewrite Hl1 in Hqueue, Hcount, Hsent.
  destruct Hcase as [(Hthr & Hq' & Hc' & Hlen)
                    | [(Hlt & Hq' & Hc' & Hlen) | (Heq & Hq' & Hc' & Hnew & Hlen)]].
  - (* throttled *)
    assert (Hroom : room = 0%nat) by (subst room; lia).
    rewrite Hc' in Hqueue, Hcount, Hsent.
    replace (Z.to_nat (MAX_INTERNAL_MESSAGE_LIMIT w - _messageCount w)) with 0%nat
      in Hqueue, Hcount, Hsent by lia.
    rewrite Hroom. simpl in *. rewrite Hq' in Hqueue.
    repeat split; try done; try lia.
    intros l o Hl HF. inversion HF; subst. apply Hframe; [|done]. by apply Hfr.
  - (* under the limit *)
    assert (Hroom : room = S (Z.to_nat (MAX_INTERNAL_MESSAGE_LIMIT w - _messageCount w1)))
      by (subst room; lia).
    rewrite Hroom.
    set (room1 := Z.to_nat (MAX_INTERNAL_MESSAGE_LIMIT w - _messageCount w1)) in *.
    assert (0 < room1)%nat by (subst room1; lia).
    rewrite Hq', Hlen in Hqueue.
    split; [|split; [|split]].
    + rewrite Hqueue. simpl. rewrite <- app_assoc. simpl.
      replace (0 <? room1)%nat with true by (symmetry; apply Nat.ltb_lt; lia).
      reflexivity.
    + rewrite Hcount, Hc'. simpl length.
      rewrite <- Nat.succ_min_distr. lia.
    + intros [_ Hle]. simpl in Hle. rewrite <- Hlen. apply Hsent. lia.
    + intros l o Hl HF. inversion HF; subst. apply Hframe; [|done]. by apply Hfr.
  - (* the limit is reached by this call *)
    assert (Hroom : room = 1%nat) by (subst room; lia).
    rewrite Hroom.
    replace (Z.to_nat (MAX_INTERNAL_MESSAGE_LIMIT w - _messageCount w1)) with 0%nat
      in Hqueue, Hcount, Hsent by lia.
    simpl in Hqueue, Hcount. rewrite app_nil_r in Hqueue.
    split; [|split; [|split]].
    + rewrite Hqueue, Hq'. reflexivity.
    + rewrite Hcount, Hc'. simpl. lia.
    + intros _. apply Hframe; [exact Hnew|].
      rewrite Forall_forall. intros c' Hin.
      rewrite forallb_forall in Hall.
      apply (records_not_ref w); [|lia]. apply Hall. by apply list_elem_of_In.
    + intros l o Hl HF. inversion HF; subst. apply Hframe; [|done]. by apply Hfr.
Qed.

End LogSteps.

(** ** Facts about the numbers *)

Lemma ToNumber_toString z : ToNumber (Some (toString (Num z))) = Num z.
Proof.
  unfold ToNumber, toString.
  assert (H : NilZero.int_of_string (NilZero.string_of_int (Z.to_int z)) = Some (Z.to_int z)).
  { apply NilZero.isi.
    - destruct z; simpl; try discriminate.
      intros [= E]. revert E. apply Unsigned.to_uint_nonnil.
    - destruct z; simpl; try discriminate.
      intros [= E]. revert E. apply Unsigned.to_uint_nonnil. }
  rewrite H. by rewrite DecimalZ.of_to.
Qed.

(** What the code writes is read back as the host reads it: [toString] of
    an integer below 2^53 in magnitude, and of NaN, are values of
    [plain_numeral]. *)
Lemma plain_numeral_toString n :
  match n with NaN => True | Num z => Z.abs z < 2 ^ 53 end ->
  plain_numeral (Some (toString n)) = true.
Proof.
  destruct n as [|z]; [reflexivity|]. intros Hz.
  pose proof (ToNumber_toString z) as H. unfold ToNumber in H.
  unfold plain_numeral.
  destruct (NilZero.int_of_string (toString (Num z))) as [d|].
  - injection H as ->. by apply Z.ltb_lt.
  - destruct (decide (toString (Num z) = "")); [|discriminate].
    injection H as <-. exfalso.
    match goal with E : toString (Num 0) = _ |- _ => vm_compute in E; discriminate end.
Qed.

(** ** Facts about the Loss Ledger *)

Tactic Notation "run_with" uconstr(H) :=
  rewrite (bind_run _ _ _ _ _ H); cbn beta iota delta [negb].

Lemma healthy_intro w :
  ledger_enabled w = true -> no_faults w = true -> exists s, healthy w s.
Proof.
  unfold ledger_enabled, no_faults, healthy.
  destruct (sessionStorage w) as [s|]; [|rewrite andb_false_r; discriminate].
  intros He Hf. exists s.
  apply andb_true_iff in He as [He Hs]. apply andb_true_iff in He as [He Ha].
  apply andb_true_iff in Hs as [Hg Hs].
  apply bool_decide_eq_true in Ha, Hf. done.
Qed.

Lemma healthy_with_items w s m :
  healthy w s ->
  healthy (with_items m w)
    {| has_getItem := true; has_setItem := true; items := m; faults := [] |}.
Proof. intros (H1 & H2 & H3 & H4 & H5 & H6). unfold healthy, with_items. simpl. done. Qed.


Lemma isEnabled_healthy w s : healthy w s -> isEnabled w = (Ret true, w).
Proof.
  intros (H1 & H2 & H3 & H4 & H5 & H6). unfold isEnabled, gets.
  rewrite H1, H2, H3, H5. by rewrite bool_decide_eq_true_2.
Qed.

Lemma getItem_healthy key w s :
  healthy w s -> sessionStorage_getItem key w = (Ret (items s !! key), w).
Proof.
  intros (H1 & H2 & H3 & H4 & _).
  unfold sessionStorage_getItem, storage_call. rewrite H1, H2, H4. simpl.
  f_equal. destruct w, s. simpl in *. subst. reflexivity.
Qed.

Lemma setItem_healthy key value w s :
  healthy w s ->
  sessionStorage_setItem key value w = (Ret tt, with_items (<[key := value]> (items s)) w).
Proof.
  intros (H1 & H2 & H3 & H4 & _).
  unfold sessionStorage_setItem, storage_call. rewrite H1, H3, H4. simpl.
  unfold with_items. by rewrite H2.
Qed.

Lemma stored_healthy key w s : healthy w s -> stored key w = ToNumber (items s !! key).
Proof. intros (H1 & _). unfold stored. by rewrite H1. Qed.

Lemma stored_with_items key m w : stored key (with_items m w) = ToNumber (m !! key).
Proof. reflexivity. Qed.

Lemma getIssuesReported_healthy w s :
  healthy w s ->
  getIssuesReported w = (Ret (or_zero (stored ISSUES_REPORTED_KEY w)), w).
Proof.
  intros Hh. unfold getIssuesReported.
  run_with (isEnabled_healthy w s Hh).
  run_with (getItem_healthy _ w s Hh).
  rewrite (stored_healthy _ w s Hh). unfold or_zero.
  destruct (isNaN _); [reflexivity|].
  run_with (getItem_healthy _ w s Hh). reflexivity.
Qed.

Lemma getNumberOfLostItems_healthy w s :
  healthy w s ->
  getNumberOfLostItems w = (Ret (or_zero (stored ITEMS_QUEUED_KEY w)), w).
Proof.
  intros Hh. unfold getNumberOfLostItems, try_catch.
  run_with (isEnabled_healthy w s Hh).
  run_with (getItem_healthy _ w s Hh).
  rewrite (stored_healthy _ w s Hh). unfold or_zero.
  destruct (isNaN _); [reflexivity|].
  run_with (getItem_healthy _ w s Hh). reflexivity.
Qed.

Lemma reset_healthy w s :
  healthy w s -> reset w = (Ret tt, with_items (<[ITEMS_QUEUED_KEY := "0"]> (items s)) w).
Proof.
  intros Hh. unfold reset.
  run_with (isEnabled_healthy w s Hh).
  apply (setItem_healthy _ _ w s Hh).
Qed.

Lemma incrementItemsQueued_healthy w s :
  healthy w s ->
  incrementItemsQueued w =
  (Ret tt,
   with_items (<[ITEMS_QUEUED_KEY :=
                   toString (js_add (or_zero (stored ITEMS_QUEUED_KEY w)) (Num 1))]> (items s)) w).
Proof.
  intros Hh. unfold incrementItemsQueued, try_catch.
  run_with (isEnabled_healthy w s Hh).
  run_with (getNumberOfLostItems_healthy w s Hh).
  by rewrite (setItem_healthy _ _ w s Hh).
Qed.

Lemma decrementItemsQueued_healthy n w s :
  healthy w s ->
  decrementItemsQueued n w =
  (Ret tt,
   with_items
     (<[ITEMS_QUEUED_KEY :=
          toString (let q := js_sub (or_zero (stored ITEMS_QUEUED_KEY w)) n in
                    if js_lt q (Num 0) then Num 0 else q)]> (items s)) w).
Proof.
  intros Hh. unfold decrementItemsQueued, try_catch.
  run_with (isEnabled_healthy w s Hh).
  run_with (getNumberOfLostItems_healthy w s Hh).
  by rewrite (setItem_healthy _ _ w s Hh).
Qed.

Lemma healthy_ledger_part w w' s :
  ledger_part w' = ledger_part w -> healthy w s -> healthy w' s.
Proof.
  unfold ledger_part, healthy. intros [= -> -> _ ->]. done.
Qed.

Lemma shouldReport_healthy w s :
  healthy w s ->
  shouldReport w =
  (Ret (js_lt (or_zero (stored ISSUES_REPORTED_KEY w)) LIMIT_PER_SESSION
        && js_lt (Num 0) (or_zero (stored ITEMS_QUEUED_KEY w))), w).
Proof.
  intros Hh. unfold shouldReport.
  run_with (isEnabled_healthy w s Hh).
  run_with (getIssuesReported_healthy w s Hh).
  destruct (js_lt _ LIMIT_PER_SESSION); [|reflexivity].
  run_with (getNumberOfLostItems_healthy w s Hh). reflexivity.
Qed.

Lemma call_reporter_returns (m : AppInsights -> Method) c w ai :
  appInsights w = Some ai -> m ai = Returns ->
  call_reporter m c w = (Ret tt, set_reporter_calls (reporter_calls w ++ [c]) w).
Proof.
  intros Ha Hm. unfold call_reporter. rewrite bind_gets, Ha, Hm. reflexivity.
Qed.

Lemma call_reporter_throws (m : AppInsights -> Method) c w ai e :
  appInsights w = Some ai -> m ai = Throws e ->
  call_reporter m c w = (Throw e, set_reporter_calls (reporter_calls w ++ [c]) w).
Proof.
  intros Ha Hm. unfold call_reporter. rewrite bind_gets, Ha, Hm. reflexivity.
Qed.


Section ReportSteps.

Variable js : Properties -> Result string.
Variable name_of dump_of : Thrown -> string.

(** The [finally] block on a healthy world. *)
Lemma finally_reset {A} (r : Result A) w s :
  healthy w s ->
  (let '(r0, w0) := try_catch reset (fun _ => ret tt) w in
   match r0 with Ret _ => (r, w0) | Throw e => (Throw e, w0) end)
  = (r, with_items (<[ITEMS_QUEUED_KEY := "0"]> (items s)) w).
Proof.
  intros Hh. unfold try_catch. by rewrite (reset_healthy w s Hh).
Qed.

Lemma reportLostItems_skips w s :
  healthy w s ->
  js_lt (or_zero (stored ISSUES_REPORTED_KEY w)) LIMIT_PER_SESSION
    && js_lt (Num 0) (or_zero (stored ITEMS_QUEUED_KEY w)) = false ->
  reportLostItems js name_of dump_of w
  = (Ret tt, with_items (<[ITEMS_QUEUED_KEY := "0"]> (items s)) w).
Proof.
  intros Hh Hno. unfold reportLostItems, try_finally, try_catch at 1.
  run_with (shouldReport_healthy w s Hh). rewrite Hno.
  unfold ret at 1. apply (finally_reset (Ret tt) w s Hh).
Qed.

Lemma reportLostItems_reports w s :
  healthy w s ->
  reporter_returns w = true ->
  js_lt (or_zero (stored ISSUES_REPORTED_KEY w)) LIMIT_PER_SESSION
    && js_lt (Num 0) (or_zero (stored ITEMS_QUEUED_KEY w)) = true ->
  reportLostItems js name_of dump_of w
  = (Ret tt,
     with_items
       (<[ITEMS_QUEUED_KEY := "0"]>
          (<[ISSUES_REPORTED_KEY :=
               toString (js_add (or_zero (stored ISSUES_REPORTED_KEY w)) (Num 1))]>
             (items s)))
       (with_items
          (<[ISSUES_REPORTED_KEY :=
               toString (js_add (or_zero (stored ISSUES_REPORTED_KEY w)) (Num 1))]>
             (items s))
          (set_reporter_calls
             ((reporter_calls w
               ++ [CallTrackTrace ("AI (Internal): Internal report DATALOSS: "
                                   +:+ toString (or_zero (stored ITEMS_QUEUED_KEY w)))])
              ++ [CallFlush])
             (set_reporter_calls
                (reporter_calls w
                 ++ [CallTrackTrace ("AI (Internal): Internal report DATALOSS: "
                                     +:+ toString (or_zero (stored ITEMS_QUEUED_KEY w)))])
                w)))).
Proof.
  intros Hh Hrep Hgo. unfold reportLostItems, try_finally, try_catch at 1.
  run_with (shouldReport_healthy w s Hh). rewrite Hgo.
  run_with (getNumberOfLostItems_healthy w s Hh).
  unfold reporter_returns in Hrep.
  destruct (appInsights w) as [ai|] eqn:Ha; [|discriminate].
  destruct (trackTrace ai) eqn:Ht; try discriminate.
  destruct (flush ai) eqn:Hf; try discriminate.
  run_with (call_reporter_returns trackTrace _ w ai Ha Ht).
  match goal with |- context [bind (call_reporter flush CallFlush) _ ?w1] =>
    set (w1' := w1);
    assert (Hh1 : healthy w1' s) by exact Hh end.
  run_with (call_reporter_returns flush CallFlush w1' ai Ha Hf).
  match goal with |- context [bind getIssuesReported _ ?w2] =>
    set (w2' := w2);
    assert (Hh2 : healthy w2' s) by exact Hh end.
  run_with (getIssuesReported_healthy w2' s Hh2).
  rewrite (setItem_healthy _ _ w2' s Hh2).
  match goal with |- context [try_catch reset _ ?w3] =>
    set (w3' := w3) end.
  pose proof (healthy_with_items w2' s
    (<[ISSUES_REPORTED_KEY :=
         toString (js_add (or_zero (stored ISSUES_REPORTED_KEY w2')) (Num 1))]> (items s)) Hh2)
    as Hh3.
  apply (finally_reset (Ret tt) w3' _ Hh3).
Qed.

(** The [catch] block only talks to the Diagnostic Log. *)
Lemma catch_block_ledger_part e w :
  ledger_part
    (snd (bind (new_InternalLogMessage
                  (Some ("Failed to report data loss: " +:+ name_of e))
                  (PropObject (ObjLiteral [("exception", dump_of e)])))
               (fun m => throwInternalNonUserActionable js CRITICAL (VRef m)) w))
  = ledger_part w.
Proof.
  unfold bind, new_InternalLogMessage. cbn beta iota zeta delta [falsy].
  match goal with |- context [throwInternalNonUserActionable js CRITICAL ?v ?w1] =>
    destruct (perform_cases js (ViaRecord NonUserActionable CRITICAL v) w1) as (_ & H & _)
  end.
  simpl perform in H. unfold record in H. rewrite H. reflexivity.
Qed.

Lemma reportLostItems_reporter_throws w s :
  healthy w s ->
  reporter_throws w = true ->
  js_lt (or_zero (stored ISSUES_REPORTED_KEY w)) LIMIT_PER_SESSION
    && js_lt (Num 0) (or_zero (stored ITEMS_QUEUED_KEY w)) = true ->
  exists r wh,
    healthy wh s /\
    reportLostItems js name_of dump_of w
    = (r, with_items (<[ITEMS_QUEUED_KEY := "0"]> (items s)) wh).
Proof.
  intros Hh Hrep Hgo. unfold reportLostItems, try_finally, try_catch at 1.
  run_with (shouldReport_healthy w s Hh). rewrite Hgo.
  run_with (getNumberOfLostItems_healthy w s Hh).
  unfold reporter_throws in Hrep.
  destruct (appInsights w) as [ai|] eqn:Ha; [|discriminate].
  assert (Hcatch : forall e w1, healthy w1 s ->
    exists r wh,
      healthy wh s /\
      (let '(r0, w0) :=
         bind (new_InternalLogMessage
                 (Some ("Failed to report data loss: " +:+ name_of e))
                 (PropObject (ObjLiteral [("exception", dump_of e)])))
              (fun m => throwInternalNonUserActionable js CRITICAL (VRef m)) w1 in
       let '(r1, w2) := try_catch reset (fun _ => ret tt) w0 in
       match r1 with Ret _ => (r0, w2) | Throw e' => (Throw e', w2) end)
      = (r, with_items (<[ITEMS_QUEUED_KEY := "0"]> (items s)) wh)).
  { intros e w1 Hh1.
    pose proof (catch_block_ledger_part e w1) as Hl.
    destruct (bind _ _ w1) as [r0 w0]. simpl in Hl.
    pose proof (healthy_ledger_part w1 w0 s Hl Hh1) as Hh0.
    exists r0, w0. split; [exact Hh0|]. apply (finally_reset r0 w0 s Hh0). }
  destruct (trackTrace ai) as [| |e] eqn:Ht; try discriminate.
  - destruct (flush ai) as [| |e] eqn:Hf; try discriminate.
    run_with (call_reporter_returns trackTrace _ w ai Ha Ht).
    match goal with |- context [bind (call_reporter flush CallFlush) _ ?w1] =>
      set (w1' := w1);
      assert (Hh1 : healthy w1' s) by exact Hh end.
    run_with (call_reporter_throws flush CallFlush w1' ai e Ha Hf).
    apply Hcatch. exact Hh.
  - run_with (call_reporter_throws trackTrace _ w ai e Ha Ht).
    apply Hcatch. exact Hh.
Qed.

End ReportSteps.

(** ** The Diagnostic Log: properties *)

Section LogProperties.

Variable js : Properties -> Result string.

Lemma record_prefix a sev l o text w :
  enableDebugExceptions w = false ->
  heap w !! l = Some o ->
  message o = Some text ->
  heap (snd (record js a sev (VRef l) w)) !! l
  = Some {| message := Some (prefix_of a +:+ text); properties := properties o |}.
Proof.
  intros Hd Hl Hm.
  assert (Hlt : (l < length (heap w))%nat) by (eapply lookup_lt_Some; eauto).
  destruct (record_decompose js a sev (VRef l) w)
    as [[Hd' _] | [(_ & Hdeg & _) | (l' & o' & text' & [= <-] & _ & Hl' & Hm' & Hcase)]].
  - congruence.
  - simpl in Hdeg. rewrite Hl, Hm in Hdeg. discriminate.
  - assert (o' = o) by congruence. subst o'.
    assert (text' = text) by congruence. subst text'.
    destruct Hcase as [(e & w1 & E & Hw1 & _) | (w1 & Hw1 & E)];
      apply prefixed_world_eq in Hw1 as (Hh & _); rewrite E.
    + simpl. rewrite Hh. by apply list_lookup_insert_eq.
    + destruct (logInternalMessage_cases sev (VRef l) w1)
        as (_ & _ & [(Hh' & _) | [(_ & _ & _ & _ & Hh' & _) | (_ & _ & _ & _ & Hh' & _)]]);
        rewrite Hh', Hh.
      * by apply list_lookup_insert_eq.
      * by apply list_lookup_insert_eq.
      * apply lookup_app_l_Some. by apply list_lookup_insert_eq.
Qed.

(** C9: with debug exceptions off, one call of [throwInternalUserActionable]
    or [throwInternalNonUserActionable] on a message whose text is defined
    leaves that message with its text prefixed exactly once, by "AI: " or by
    "AI (Internal): "; this holds for every severity and every world, so
    also when the throttle or the verbosity filter drops the message (or the
    console throws). *)
Theorem record_prefixes_once sev l o text w :
  enableDebugExceptions w = false ->
  heap w !! l = Some o ->
  message o = Some text ->
  heap (snd (throwInternalUserActionable js sev (VRef l) w)) !! l
    = Some {| message := Some ("AI: " +:+ text); properties := properties o |} /\
  heap (snd (throwInternalNonUserActionable js sev (VRef l) w)) !! l
    = Some {| message := Some ("AI (Internal): " +:+ text); properties := properties o |}.
Proof.
  intros Hd Hl Hm. split.
  - exact (record_prefix UserActionable sev l o text w Hd Hl Hm).
  - exact (record_prefix NonUserActionable sev l o text w Hd Hl Hm).
Qed.

Lemma record_degenerate a sev v w :
  degenerate w v = true ->
  record js a sev v w
  = (if enableDebugExceptions w then Throw (ThrownValue v) else Ret tt, w).
Proof.
  intros Hdeg.
  destruct (record_decompose js a sev v w)
    as [[Hd E] | [(Hd & _ & E) | (l & o & text & -> & _ & Hl & Hm & _)]].
  - by rewrite E, Hd.
  - by rewrite E, Hd.
  - simpl in Hdeg. rewrite Hl, Hm in Hdeg. discriminate.
Qed.

(** C10: on a null or undefined message, or a message whose [message] field
    is undefined, both report calls leave the world as it is (no prefix, no
    console line, nothing queued, counter unchanged) and return when debug
    exceptions are off; when they are on, the value passed is thrown as it
    is. *)
Theorem degenerate_message_is_noop sev v w :
  degenerate w v = true ->
  throwInternalUserActionable js sev v w
    = (if enableDebugExceptions w then Throw (ThrownValue v) else Ret tt, w) /\
  throwInternalNonUserActionable js sev v w
    = (if enableDebugExceptions w then Throw (ThrownValue v) else Ret tt, w).
Proof.
  intros Hdeg. split.
  - exact (record_degenerate UserActionable sev v w Hdeg).
  - exact (record_degenerate NonUserActionable sev v w Hdeg).
Qed.

Lemma record_quiet a sev v w :
  enableDebugExceptions w = false ->
  console_quiet w = true ->
  serializable js w v = true ->
  fst (record js a sev v w) = Ret tt.
Proof.
  intros Hd Hq Hser.
  destruct (record_decompose js a sev v w)
    as [[Hd' _] | [(_ & _ & E) | (l & o & text & -> & _ & Hl & Hm & Hcase)]].
  - congruence.
  - by rewrite E.
  - simpl in Hser. rewrite Hl in Hser.
    destruct Hcase as [(e & w1 & _ & _ & Hbad) | (w1 & Hw1 & E)].
    + unfold loggable in Hbad. rewrite Hq, Hm, Hser in Hbad. discriminate.
    + rewrite E. apply logInternalMessage_quiet.
      rewrite (log_state_console_quiet _ _ Hw1). exact Hq.
Qed.

(** C5 (amended): with debug exceptions off, a console none of whose called
    methods throws (a missing console, or missing [warn] and [log], included)
    and message properties that [JSON.stringify] accepts, the four operations
    return without an exception. *)
Theorem log_returns_when_host_does sev v text w :
  enableDebugExceptions w = false ->
  console_quiet w = true ->
  serializable js w v = true ->
  fst (throwInternalUserActionable js sev v w) = Ret tt /\
  fst (throwInternalNonUserActionable js sev v w) = Ret tt /\
  fst (logInternalMessage sev v w) = Ret tt /\
  fst (warnToConsole text w) = Ret tt.
Proof.
  intros Hd Hq Hser. split; [|split; [|split]].
  - exact (record_quiet UserActionable sev v w Hd Hq Hser).
  - exact (record_quiet NonUserActionable sev v w Hd Hq Hser).
  - by apply logInternalMessage_quiet.
  - destruct (warnToConsole_quiet text w Hq) as [-> | ->]; reflexivity.
Qed.

(** C4 (amended): [resetInternalMessageCount] sets the counter to 0; a call
    that appends nothing leaves the counter, a call that appends the caller's
    message adds exactly one, and the sentinel that may follow that message
    is appended without an increment; so over any calls without a reset the
    queue grows by the increase of the counter, plus one when the counter
    reaches the limit on the way. *)
Theorem messageCount_counts_caller_messages :
  (forall w, _messageCount (snd (resetInternalMessageCount w)) = 0) /\
  (forall c w,
     let w' := snd (perform js c w) in
     (queue w' = queue w /\ _messageCount w' = _messageCount w)
     \/ (queue w' = queue w ++ [call_value c] /\
         _messageCount w' = _messageCount w + 1)
     \/ (queue w' = queue w ++ [call_value c; VRef (length (heap w))] /\
         _messageCount w' = _messageCount w + 1 /\
         _messageCount w' = MAX_INTERNAL_MESSAGE_LIMIT w)) /\
  (forall cs w,
     let w' := snd (perform_all js cs w) in
     Z.of_nat (length (queue w')) =
       Z.of_nat (length (queue w)) + (_messageCount w' - _messageCount w)
       + (if (_messageCount w <? MAX_INTERNAL_MESSAGE_LIMIT w)
             && (_messageCount w' =? MAX_INTERNAL_MESSAGE_LIMIT w)
          then 1 else 0)).
Proof.
  split; [reflexivity|]. split.
  - intros c w w'. subst w'.
    destruct (perform_cases js c w) as (_ & _ & [H | [H | H]]).
    + by left.
    + right. left. destruct H as (_ & ? & _ & ?). done.
    + right. right. destruct H as (_ & ? & ? & ?). done.
  - intros cs w. apply (queue_growth js cs w).
Qed.

End LogProperties.

Section Throttle.

Variable js : Properties -> Result string.

Lemma critical_record_records w cs :
  forallb (critical_record js w) cs = true -> forallb (records js w) cs = true.
Proof.
  rewrite !forallb_forall. intros H c Hin. specialize (H c Hin).
  destruct c as [a [] v | [] v | t]; simpl in *; try discriminate;
    by rewrite H, orb_true_r.
Qed.

Lemma well_formed_call_records w cs :
  verboseLogging w = true ->
  forallb (well_formed_call js w) cs = true -> forallb (records js w) cs = true.
Proof.
  intros Hv. rewrite !forallb_forall. intros H c Hin. specialize (H c Hin).
  destruct c as [a s v | s v | t]; simpl in *; try discriminate; by rewrite Hv, H.
Qed.

Lemma warning_filtered a v w :
  verboseLogging w = false ->
  queue (snd (record js a WARNING v w)) = queue w.
Proof.
  intros Hv.
  destruct (record_decompose js a WARNING v w)
    as [[_ E] | [(_ & _ & E) | (l & o & text & -> & _ & Hl & Hm & Hcase)]];
    [by rewrite E | by rewrite E |].
  destruct Hcase as [(e & w1 & E & Hw1 & _) | (w1 & Hw1 & E)];
    apply prefixed_world_eq in Hw1 as (_ & Hq & _ & Hs & _); rewrite E; [done|].
  assert (Hv1 : verboseLogging w1 = false) by (unfold log_settings in Hs; congruence).
  destruct (logInternalMessage_cases WARNING (VRef l) w1)
    as (_ & _ & [(_ & Hq' & _) | [(_ & Hbad & _) | (_ & Hbad & _)]]).
  - congruence.
  - rewrite Hv1 in Hbad. discriminate.
  - rewrite Hv1 in Hbad. discriminate.
Qed.

(** C3: with limit [L >= 1], counter 0, an empty queue, verbose and debug
    off, [L + 2] CRITICAL record calls on well-formed messages (each of
    which returns: the console does not throw) leave exactly [L + 1] entries
    in the queue: the first [L] recorded messages, then the sentinel object
    with the text "AI (Internal): Internal events throttle limit per PageView
    reached for this app."; any further calls queue nothing, and after
    [resetInternalMessageCount] a record call is queued again. *)
Theorem throttle_queues_limit_then_sentinel (L : nat) cs w :
  (1 <= L)%nat ->
  MAX_INTERNAL_MESSAGE_LIMIT w = Z.of_nat L ->
  _messageCount w = 0 ->
  queue w = [] ->
  verboseLogging w = false ->
  enableDebugExceptions w = false ->
  console_quiet w = true ->
  length cs = (L + 2)%nat ->
  forallb (critical_record js w) cs = true ->
  exists w',
    perform_all js cs w = (Ret tt, w') /\
    queue w' = take L (map call_value cs) ++ [VRef (length (heap w))] /\
    length (queue w') = S L /\
    heap w' !! length (heap w) = Some throttleMessage /\
    (forall more, queue (snd (perform_all js more w')) = queue w') /\
    (forall c, records js w' c = true ->
       exists rest,
         queue (snd (perform js c (snd (resetInternalMessageCount w'))))
         = queue w' ++ call_value c :: rest).
Proof.
  intros HL Hlim Hc Hq Hv Hd Hcq Hlen Hall.
  destruct (perform_all_records js cs w Hd Hcq (critical_record_records w cs Hall))
    as (w' & E & Hs & Hqueue & Hcount & Hsent & _).
  rewrite Hlim, Hc, Hq, Z.sub_0_r, Nat2Z.id, Hlen in *.
  replace ((0 <? L)%nat && (L <=? L + 2)%nat) with true in Hqueue.
  2: { symmetry. apply andb_true_iff. split; [apply Nat.ltb_lt | apply Nat.leb_le]; lia. }
  exists w'. split; [exact E|]. split; [exact Hqueue|].
  assert (Hlim' : MAX_INTERNAL_MESSAGE_LIMIT w' = Z.of_nat L)
    by (unfold log_settings in Hs; congruence).
  assert (Hd' : enableDebugExceptions w' = false)
    by (unfold log_settings in Hs; congruence).
  assert (Hcq' : console_quiet w' = true).
  { unfold console_quiet in *. unfold log_settings in Hs.
    replace (console w') with (console w) by congruence. exact Hcq. }
  split; [|split; [|split]].
  - rewrite Hqueue; simpl. rewrite length_app, length_take, length_map, Hlen. simpl. lia.
  - apply Hsent. lia.
  - intros more. apply (throttled_perform_all js more w'). lia.
  - intros c Hrec.
    destruct (perform_records js c (snd (resetInternalMessageCount w')) Hd' Hcq' Hrec)
      as (w'' & E'' & _ & _ & _ & Hcase).
    rewrite E''. simpl in Hcase |- *.
    destruct Hcase as [(Hbad & _) | [(_ & Hq'' & _) | (_ & Hq'' & _)]].
    + lia.
    + exists []. exact Hq''.
    + eexists. exact Hq''.
Qed.

(** C7 (amended): from counter 0 with debug off (and a console that does
    not throw): with verbose logging off one WARNING record call appends
    nothing and one CRITICAL record call appends exactly its message when
    the throttle limit is above 1, as the default 25 is; with verbose logging on, [N] record calls of
    either severity append their [N] messages in order, cut only by the
    throttle limit (the first [limit] of them, then the sentinel). *)
Theorem verbosity_filter w :
  _messageCount w = 0 ->
  enableDebugExceptions w = false ->
  console_quiet w = true ->
  (verboseLogging w = false ->
   forall a v, well_formed js w v = true ->
     queue (snd (record js a WARNING v w)) = queue w /\
     (1 < MAX_INTERNAL_MESSAGE_LIMIT w ->
      queue (snd (record js a CRITICAL v w)) = queue w ++ [v])) /\
  (verboseLogging w = true ->
   forall cs, forallb (well_formed_call js w) cs = true ->
     exists w',
       perform_all js cs w = (Ret tt, w') /\
       queue w' = queue w
                  ++ take (Z.to_nat (MAX_INTERNAL_MESSAGE_LIMIT w)) (map call_value cs)
                  ++ (if (0 <? Z.to_nat (MAX_INTERNAL_MESSAGE_LIMIT w))%nat
                         && (Z.to_nat (MAX_INTERNAL_MESSAGE_LIMIT w) <=? length cs)%nat
                      then [VRef (length (heap w))] else []) /\
       (Z.of_nat (length cs) < MAX_INTERNAL_MESSAGE_LIMIT w ->
        queue w' = queue w ++ map call_value cs)).
Proof.
  intros Hc Hd Hcq. split.
  - intros Hv a v Hwf. split; [by apply warning_filtered|].
    intros Hlim.
    assert (Hrec : records js w (ViaRecord a CRITICAL v) = true)
      by (simpl; rewrite Hwf; apply andb_true_iff; split; [apply orb_true_r|done]).
    destruct (perform_records js _ w Hd Hcq Hrec) as (w' & E & _ & _ & _ & Hcase).
    simpl perform in E. rewrite E. simpl.
    destruct Hcase as [(? & _) | [(_ & Hq & _) | (? & _)]]; [lia | exact Hq | lia].
  - intros Hv cs Hall.
    destruct (perform_all_records js cs w Hd Hcq (well_formed_call_records w cs Hv Hall))
      as (w' & E & _ & Hqueue & _).
    rewrite Hc, Z.sub_0_r in Hqueue.
    exists w'. split; [exact E|]. split; [exact Hqueue|].
    intros Hlt. rewrite Hqueue.
    rewrite take_ge by (rewrite length_map; lia).
    replace (Z.to_nat (MAX_INTERNAL_MESSAGE_LIMIT w) <=? length cs)%nat with false.
    2: { symmetry. apply Nat.leb_gt. lia. }
    by rewrite andb_false_r, app_nil_r.
Qed.

End Throttle.

(** ** The Loss Ledger: properties *)

Lemma stored_persisted key w : stored key w = ToNumber (persisted key w).
Proof. unfold stored, persisted. by destruct (sessionStorage w). Qed.

Lemma keys_differ : ITEMS_QUEUED_KEY <> ISSUES_REPORTED_KEY.
Proof. discriminate. Qed.


Lemma getters_healthy w s :
  healthy w s ->
  fst (getIssuesReported w) = Ret (or_zero (stored ISSUES_REPORTED_KEY w)) /\
  fst (getNumberOfLostItems w) = Ret (or_zero (stored ITEMS_QUEUED_KEY w)).
Proof.
  intros Hh. by rewrite (getIssuesReported_healthy w s Hh), (getNumberOfLostItems_healthy w s Hh).
Qed.

Lemma increments_healthy (j : nat) : forall w s z,
  healthy w s ->
  stored ITEMS_QUEUED_KEY w = Num z ->
  exists w' s',
    repeat_M j incrementItemsQueued w = (Ret tt, w') /\
    healthy w' s' /\
    stored ITEMS_QUEUED_KEY w' = Num (z + Z.of_nat j).
Proof.
  induction j as [|j IH]; intros w s z Hh Hz.
  - exists w, s. simpl. rewrite Z.add_0_r. done.
  - pose proof (incrementItemsQueued_healthy w s Hh) as E.
    rewrite Hz in E. simpl in E.
    match type of E with _ = (_, with_items ?m _) =>
      pose proof (healthy_with_items w s m Hh) as Hh1;
      destruct (IH (with_items m w) _ (z + 1) Hh1) as (w' & s' & E' & Hh' & Hz')
    end.
    { rewrite stored_with_items, lookup_insert_eq. apply ToNumber_toString. }
    exists w', s'. split; [|split; [exact Hh'|]].
    + cbn [repeat_M]. run_with E. exact E'.
    + rewrite Hz'. f_equal. lia.
Qed.

(** C8: with the Ledger enabled, a backend that does not throw and
    [itemsQueued] unset or 0, [K] calls of [incrementItemsQueued] followed by
    [decrementItemsQueued(M)] leave [getNumberOfLostItems() = K - M] when
    [M <= K] and 0 otherwise; the persisted value is [j] after [j]
    increments and non-negative at the end. *)
Theorem queued_items_accounting (K : nat) (M : Z) w :
  ledger_enabled w = true ->
  no_faults w = true ->
  stored ITEMS_QUEUED_KEY w = Num 0 ->
  let w' := snd (bind (repeat_M K incrementItemsQueued)
                      (fun _ => decrementItemsQueued (Num M)) w) in
  fst (getNumberOfLostItems w')
    = Ret (if M <=? Z.of_nat K then Num (Z.of_nat K - M) else Num 0) /\
  (forall j, (j <= K)%nat ->
     stored ITEMS_QUEUED_KEY (snd (repeat_M j incrementItemsQueued w))
     = Num (Z.of_nat j)) /\
  exists z, stored ITEMS_QUEUED_KEY w' = Num z /\ 0 <= z.
Proof.
  intros He Hf H0 w'.
  destruct (healthy_intro w He Hf) as (s & Hh).
  assert (Hinc : forall j, exists wj sj,
            repeat_M j incrementItemsQueued w = (Ret tt, wj) /\ healthy wj sj /\
            stored ITEMS_QUEUED_KEY wj = Num (Z.of_nat j)).
  { intros j. destruct (increments_healthy j w s 0 Hh H0) as (wj & sj & E & Hhj & Hz).
    exists wj, sj. done. }
  destruct (Hinc K) as (wK & sK & EK & HhK & HzK).
  assert (Hw' : stored ITEMS_QUEUED_KEY w'
                = Num (if M <=? Z.of_nat K then Z.of_nat K - M else 0)
                /\ exists s', healthy w' s').
  { subst w'. run_with EK.
    rewrite (decrementItemsQueued_healthy (Num M) wK sK HhK), HzK. simpl.
    split; [|eexists; apply (healthy_with_items wK sK _ HhK)].
    rewrite stored_with_items, lookup_insert_eq.
    destruct (Z.of_nat K - M <? 0) eqn:E1, (M <=? Z.of_nat K) eqn:E2;
      rewrite ToNumber_toString; f_equal; lia. }
  destruct Hw' as (Hst & s' & Hh').
  split; [|split].
  - destruct (getters_healthy w' s' Hh') as (_ & ->). rewrite Hst.
    by destruct (M <=? Z.of_nat K).
  - intros j _. destruct (Hinc j) as (wj & sj & Ej & _ & Hzj). by rewrite Ej.
  - eexists. split; [exact Hst|]. destruct (M <=? Z.of_nat K) eqn:E; lia.
Qed.

Section ReportProperties.

Variable js : Properties -> Result string.
Variable name_of dump_of : Thrown -> string.

(** C6: with the Ledger enabled, a backend and a reporter that do not
    throw, and both stored counters read as the host reads them
    ([plain_ledger]), [reportLostItems] with a positive loss [k] returns and leaves
    [getNumberOfLostItems() = 0]; while [issuesReported] is under the limit
    of 10 it calls [trackTrace] and [flush] once each and persists
    [issuesReported + 1]; from the limit on it calls neither and leaves
    [issuesReported], which therefore never passes the limit. *)
Theorem report_lost_items w n k :
  ledger_enabled w = true ->
  no_faults w = true ->
  plain_ledger w = true ->
  reporter_returns w = true ->
  fst (getIssuesReported w) = Ret (Num n) ->
  fst (getNumberOfLostItems w) = Ret (Num k) ->
  0 < k ->
  let w' := snd (reportLostItems js name_of dump_of w) in
  fst (reportLostItems js name_of dump_of w) = Ret tt /\
  fst (getNumberOfLostItems w') = Ret (Num 0) /\
  (if n <? 10 then
     reporter_calls w'
     = reporter_calls w
       ++ [CallTrackTrace ("AI (Internal): Internal report DATALOSS: " +:+ toString (Num k));
           CallFlush] /\
     fst (getIssuesReported w') = Ret (Num (n + 1))
   else
     reporter_calls w' = reporter_calls w /\
     fst (getIssuesReported w') = Ret (Num n)) /\
  exists n', fst (getIssuesReported w') = Ret (Num n') /\ (n <= 10 -> n' <= 10).
Proof.
  intros He Hf _ Hrep Hn Hk Hpos w'.
  destruct (healthy_intro w He Hf) as (s & Hh).
  destruct (getters_healthy w s Hh) as (Hgi & Hgl).
  rewrite Hgi in Hn. rewrite Hgl in Hk. injection Hn as Hn. injection Hk as Hk.
  assert (Hgo : js_lt (or_zero (stored ISSUES_REPORTED_KEY w)) LIMIT_PER_SESSION
                && js_lt (Num 0) (or_zero (stored ITEMS_QUEUED_KEY w)) = (n <? 10)).
  { rewrite Hn, Hk. simpl. replace (0 <? k) with true by (symmetry; by apply Z.ltb_lt).
    apply andb_true_r. }
  destruct (n <? 10) eqn:Hlt.
  - pose proof (reportLostItems_reports js name_of dump_of w s Hh Hrep Hgo) as E.
    rewrite Hn, Hk in E. simpl js_add in E.
    subst w'. rewrite E. clear E. cbn [fst snd].
    match goal with |- context [with_items ?m (with_items ?m1 ?w0)] =>
      pose proof (healthy_with_items _ _ m (healthy_with_items w0 s m1 Hh)) as Hh';
      set (wf := with_items m (with_items m1 w0)) in *;
      assert (Hi : stored ISSUES_REPORTED_KEY wf = Num (n + 1))
        by (subst wf; rewrite stored_with_items,
              lookup_insert_ne by exact keys_differ;
            rewrite lookup_insert_eq; apply ToNumber_toString);
      assert (Hl : stored ITEMS_QUEUED_KEY wf = Num 0)
        by (subst wf; rewrite stored_with_items, lookup_insert_eq; reflexivity)
    end.
    destruct (getters_healthy wf _ Hh') as (-> & ->). rewrite Hi, Hl.
    apply Z.ltb_lt in Hlt.
    split; [done|]. split; [done|]. split.
    + split; [|done]. subst wf. simpl. by rewrite <- app_assoc.
    + exists (n + 1). split; [done|]. lia.
  - pose proof (reportLostItems_skips js name_of dump_of w s Hh Hgo) as E.
    subst w'. rewrite E. clear E. cbn [fst snd].
    match goal with |- context [with_items ?m ?w0] =>
      pose proof (healthy_with_items w0 s m Hh) as Hh';
      set (wf := with_items m w0) in *;
      assert (Hi : stored ISSUES_REPORTED_KEY wf = stored ISSUES_REPORTED_KEY w)
        by (subst wf; rewrite stored_with_items,
              lookup_insert_ne by exact keys_differ;
            symmetry; apply (stored_healthy _ w s Hh));
      assert (Hl : stored ITEMS_QUEUED_KEY wf = Num 0)
        by (subst wf; rewrite stored_with_items, lookup_insert_eq; reflexivity)
    end.
    destruct (getters_healthy wf _ Hh') as (-> & ->). rewrite Hi, Hl, Hn.
    split; [done|]. split; [done|]. split; [done|].
    exists n. split; [done|]. lia.
Qed.

(** C1 (amended): with the Ledger enabled, a backend that does not throw,
    both stored counters read as the host reads them ([plain_ledger]),
    [issuesReported] under the limit and a positive loss, a reporter whose
    [trackTrace] or [flush] throws leaves the persisted [issuesReported] as
    it was (the failed report is not counted); [itemsQueued] is still reset
    to 0. *)
Theorem failed_report_is_not_counted w n k :
  ledger_enabled w = true ->
  no_faults w = true ->
  plain_ledger w = true ->
  reporter_throws w = true ->
  fst (getIssuesReported w) = Ret (Num n) ->
  n < 10 ->
  fst (getNumberOfLostItems w) = Ret (Num k) ->
  0 < k ->
  let w' := snd (reportLostItems js name_of dump_of w) in
  persisted ISSUES_REPORTED_KEY w' = persisted ISSUES_REPORTED_KEY w /\
  fst (getIssuesReported w') = Ret (Num n) /\
  persisted ITEMS_QUEUED_KEY w' = Some "0" /\
  fst (getNumberOfLostItems w') = Ret (Num 0).
Proof.
  intros He Hf _ Hrep Hn Hlt Hk Hpos w'.
  destruct (healthy_intro w He Hf) as (s & Hh).
  destruct (getters_healthy w s Hh) as (Hgi & Hgl).
  rewrite Hgi in Hn. rewrite Hgl in Hk. injection Hn as Hn. injection Hk as Hk.
  assert (Hgo : js_lt (or_zero (stored ISSUES_REPORTED_KEY w)) LIMIT_PER_SESSION
                && js_lt (Num 0) (or_zero (stored ITEMS_QUEUED_KEY w)) = true).
  { rewrite Hn, Hk. simpl. apply andb_true_iff. split; [by apply Z.ltb_lt|by apply Z.ltb_lt]. }
  destruct (reportLostItems_reporter_throws js name_of dump_of w s Hh Hrep Hgo)
    as (r & wh & Hhh & E).
  subst w'. rewrite E. cbn [snd].
  set (wf := with_items (<[ITEMS_QUEUED_KEY:="0"]> (items s)) wh).
  assert (Hp : persisted ISSUES_REPORTED_KEY wf = persisted ISSUES_REPORTED_KEY w).
  { subst wf. unfold persisted at 1. simpl.
    rewrite lookup_insert_ne by exact keys_differ.
    destruct Hh as (Hs & _). unfold persisted. by rewrite Hs. }
  assert (Hq : persisted ITEMS_QUEUED_KEY wf = Some "0").
  { subst wf. unfold persisted. simpl. by rewrite lookup_insert_eq. }
  pose proof (healthy_with_items wh s (<[ITEMS_QUEUED_KEY:="0"]> (items s)) Hhh) as Hh'.
  fold wf in Hh'.
  destruct (getters_healthy wf _ Hh') as (-> & ->).
  rewrite !stored_persisted, Hp, Hq, <- stored_persisted, Hn.
  done.
Qed.

End ReportProperties.

Lemma isEnabled_spec w : isEnabled w = (Ret (ledger_enabled w), w).
Proof. reflexivity. Qed.

(** X18: with the Ledger disabled every operation returns its default and
    leaves the world as it is. *)
Lemma ledger_disabled_noop js name_of dump_of w :
  ledger_enabled w = false ->
  reset w = (Ret tt, w) /\
  getIssuesReported w = (Ret (Num 0), w) /\
  incrementItemsQueued w = (Ret tt, w) /\
  (forall n, decrementItemsQueued n w = (Ret tt, w)) /\
  getNumberOfLostItems w = (Ret (Num 0), w) /\
  reportLostItems js name_of dump_of w = (Ret tt, w).
Proof.
  intros Hoff.
  assert (E : isEnabled w = (Ret false, w)) by (by rewrite isEnabled_spec, Hoff).
  assert (Hreset : reset w = (Ret tt, w)) by (unfold reset; by run_with E).
  repeat split.
  - exact Hreset.
  - unfold getIssuesReported. by run_with E.
  - unfold incrementItemsQueued, try_catch. by run_with E.
  - intros n. unfold decrementItemsQueued, try_catch. by run_with E.
  - unfold getNumberOfLostItems, try_catch. by run_with E.
  - assert (Hgo : shouldReport w = (Ret false, w)) by (unfold shouldReport; by run_with E).
    unfold reportLostItems, try_finally, try_catch.
    run_with Hgo. unfold ret at 1. by rewrite Hreset.
Qed.

(** X19: [incrementItemsQueued], [decrementItemsQueued] and
    [getNumberOfLostItems] return in every world: they catch whatever the
    backend throws. *)
Lemma guarded_operations_return w :
  fst (incrementItemsQueued w) = Ret tt /\
  (forall n, fst (decrementItemsQueued n w) = Ret tt) /\
  exists n, fst (getNumberOfLostItems w) = Ret n.
Proof.
  split; [|split].
  - unfold incrementItemsQueued, try_catch.
    destruct (bind isEnabled _ w) as [[[]|e] w']; reflexivity.
  - intros n. unfold decrementItemsQueued, try_catch.
    destruct (bind isEnabled _ w) as [[[]|e] w']; reflexivity.
  - unfold getNumberOfLostItems, try_catch.
    destruct (bind isEnabled _ w) as [[n|e] w']; eexists; reflexivity.
Qed.

(** ** Instances on concrete worlds *)

Lemma record_prefixes_once_witness :
  heap (snd (throwInternalUserActionable example_stringify WARNING (VRef 0%nat)
               (logging_world 25 false false working_console))) !! 0%nat
    = Some {| message := Some "AI: error!"; properties := PropObject (ObjLiteral []) |} /\
  heap (snd (throwInternalNonUserActionable example_stringify WARNING (VRef 0%nat)
               (logging_world 25 false false working_console))) !! 0%nat
    = Some {| message := Some "AI (Internal): error!"; properties := PropObject (ObjLiteral []) |}.
Proof.
  exact (record_prefixes_once example_stringify WARNING 0%nat
           {| message := Some "error!"; properties := PropObject (ObjLiteral []) |}
           "error!" (logging_world 25 false false working_console)
           eq_refl eq_refl eq_refl).
Defined.

Lemma degenerate_message_is_noop_witness :
  degenerate (logging_world 25 false false working_console) VNull = true /\
  throwInternalUserActionable example_stringify CRITICAL VNull
    (logging_world 25 false false working_console)
  = (Ret tt, logging_world 25 false false working_console).
Proof.
  split; [reflexivity|].
  apply (degenerate_message_is_noop example_stringify CRITICAL VNull
           (logging_world 25 false false working_console) eq_refl).
Defined.

(** C5, counterexample: with debug exceptions off, a [console.warn] that
    throws makes [warnToConsole] and both report calls throw, and so does a
    message whose properties are circular with a working console. *)
Lemma console_failure_propagates :
  enableDebugExceptions (logging_world 25 false false throwing_console) = false /\
  fst (warnToConsole "text" (logging_world 25 false false throwing_console))
    = Throw (ThrownError "Error" "console.warn failed") /\
  fst (throwInternalUserActionable example_stringify CRITICAL (VRef 0%nat)
         (logging_world 25 false false throwing_console))
    = Throw (ThrownError "Error" "console.warn failed") /\
  fst (logInternalMessage CRITICAL (VRef 0%nat)
         (logging_world 1 false false throwing_console))
    = Throw (ThrownError "Error" "console.warn failed") /\
  fst (throwInternalNonUserActionable example_stringify CRITICAL (VRef 1%nat)
         (logging_world 25 false false working_console))
    = Throw (ThrownError "TypeError" "Converting circular structure to JSON").
Proof. repeat split. Qed.

Lemma log_returns_when_host_does_witness :
  console_quiet (logging_world 25 false false None) = true /\
  fst (throwInternalUserActionable example_stringify CRITICAL (VRef 0%nat)
         (logging_world 25 false false None)) = Ret tt /\
  fst (throwInternalNonUserActionable example_stringify CRITICAL (VRef 0%nat)
         (logging_world 25 false false None)) = Ret tt /\
  fst (logInternalMessage CRITICAL (VRef 0%nat) (logging_world 25 false false None)) = Ret tt /\
  fst (warnToConsole "text" (logging_world 25 false false None)) = Ret tt.
Proof.
  split; [reflexivity|].
  apply (log_returns_when_host_does example_stringify CRITICAL (VRef 0%nat) "text"
           (logging_world 25 false false None) eq_refl eq_refl eq_refl).
Defined.

(** C4, counterexample: with limit 1, one CRITICAL message queues two
    entries, the message and the sentinel, and the counter is 1. *)
Lemma sentinel_is_queued_uncounted :
  _messageCount (logging_world 1 false false working_console) = 0 /\
  queue (logging_world 1 false false working_console) = [] /\
  queue (snd (logInternalMessage CRITICAL (VRef 0%nat)
                (logging_world 1 false false working_console)))
    = [VRef 0%nat; VRef 3%nat] /\
  _messageCount (snd (logInternalMessage CRITICAL (VRef 0%nat)
                        (logging_world 1 false false working_console))) = 1.
Proof. repeat split. Qed.

Lemma throttle_queues_limit_then_sentinel_witness :
  exists w',
    perform_all example_stringify
      [ViaRecord NonUserActionable CRITICAL (VRef 0%nat);
       ViaRecord UserActionable CRITICAL (VRef 0%nat);
       Direct CRITICAL (VRef 0%nat);
       ViaRecord UserActionable CRITICAL (VRef 0%nat)]
      (logging_world 2 false false working_console) = (Ret tt, w') /\
    queue w' = [VRef 0%nat; VRef 0%nat; VRef 3%nat] /\
    length (queue w') = 3%nat /\
    heap w' !! 3%nat = Some throttleMessage /\
    (forall more, queue (snd (perform_all example_stringify more w')) = queue w') /\
    (forall c, records example_stringify w' c = true ->
       exists rest,
         queue (snd (perform example_stringify c (snd (resetInternalMessageCount w'))))
         = queue w' ++ call_value c :: rest).
Proof.
  apply (throttle_queues_limit_then_sentinel example_stringify 2
           [ViaRecord NonUserActionable CRITICAL (VRef 0%nat);
            ViaRecord UserActionable CRITICAL (VRef 0%nat);
            Direct CRITICAL (VRef 0%nat);
            ViaRecord UserActionable CRITICAL (VRef 0%nat)]
           (logging_world 2 false false working_console));
    first [reflexivity | lia].
Defined.

(** C7, counterexample: counter 0, verbose logging and debug exceptions
    off, a console that does not throw.  With the throttle limit set to 1 a
    single CRITICAL record call returns and appends two entries, its message
    and the throttle sentinel; with the limit set to 0 it appends none. *)
Lemma critical_record_at_low_limit :
  (let w := logging_world 1 false false working_console in
   _messageCount w = 0 /\
   enableDebugExceptions w = false /\
   verboseLogging w = false /\
   console_quiet w = true /\
   well_formed example_stringify w (VRef 0%nat) = true /\
   queue w = [] /\
   fst (record example_stringify UserActionable CRITICAL (VRef 0%nat) w) = Ret tt /\
   queue (snd (record example_stringify UserActionable CRITICAL (VRef 0%nat) w))
   = [VRef 0%nat; VRef 3%nat] /\
   heap (snd (record example_stringify UserActionable CRITICAL (VRef 0%nat) w)) !! 3%nat
   = Some {| message :=
               Some "AI (Internal): Internal events throttle limit per PageView reached for this app.";
             properties := PropObject (ObjLiteral []) |}) /\
  (let w := logging_world 0 false false working_console in
   _messageCount w = 0 /\
   well_formed example_stringify w (VRef 0%nat) = true /\
   fst (record example_stringify UserActionable CRITICAL (VRef 0%nat) w) = Ret tt /\
   queue (snd (record example_stringify UserActionable CRITICAL (VRef 0%nat) w)) = []).
Proof. vm_compute. repeat split. Qed.

Lemma verbosity_filter_witness :
  (queue (snd (throwInternalUserActionable example_stringify WARNING (VRef 0%nat)
                 (logging_world 25 false false working_console))) = [] /\
   queue (snd (throwInternalUserActionable example_stringify CRITICAL (VRef 0%nat)
                 (logging_world 25 false false working_console))) = [VRef 0%nat]) /\
  exists w',
    perform_all example_stringify
      [ViaRecord NonUserActionable WARNING (VRef 0%nat);
       ViaRecord UserActionable WARNING (VRef 0%nat);
       ViaRecord NonUserActionable CRITICAL (VRef 0%nat);
       ViaRecord UserActionable CRITICAL (VRef 0%nat)]
      (logging_world 25 true false working_console) = (Ret tt, w') /\
    queue w' = [VRef 0%nat; VRef 0%nat; VRef 0%nat; VRef 0%nat].
Proof.
  split.
  - destruct (verbosity_filter example_stringify
                (logging_world 25 false false working_console)
                eq_refl eq_refl eq_refl) as [H _].
    destruct (H eq_refl UserActionable (VRef 0%nat) eq_refl) as [H1 H2].
    split; [exact H1 | exact (H2 eq_refl)].
  - destruct (verbosity_filter example_stringify
                (logging_world 25 true false working_console)
                eq_refl eq_refl eq_refl) as [_ H].
    destruct (H eq_refl
                [ViaRecord NonUserActionable WARNING (VRef 0%nat);
                 ViaRecord UserActionable WARNING (VRef 0%nat);
                 ViaRecord NonUserActionable CRITICAL (VRef 0%nat);
                 ViaRecord UserActionable CRITICAL (VRef 0%nat)]
                eq_refl) as (w' & E & _ & Hall).
    exists w'. split; [exact E | exact (Hall eq_refl)].
Defined.

Lemma queued_items_accounting_witness :
  fst (getNumberOfLostItems
         (snd (bind (repeat_M 3 incrementItemsQueued)
                    (fun _ => decrementItemsQueued (Num 1))
                    (ledger_world working_reporter ∅ []))))
    = Ret (Num 2) /\
  fst (getNumberOfLostItems
         (snd (bind (repeat_M 3 incrementItemsQueued)
                    (fun _ => decrementItemsQueued (Num 5))
                    (ledger_world working_reporter {[ ITEMS_QUEUED_KEY := "0" ]} []))))
    = Ret (Num 0).
Proof.
  split.
  - exact (proj1 (queued_items_accounting 3 1 (ledger_world working_reporter ∅ [])
                    eq_refl eq_refl eq_refl)).
  - exact (proj1 (queued_items_accounting 3 5
                    (ledger_world working_reporter {[ ITEMS_QUEUED_KEY := "0" ]} [])
                    eq_refl eq_refl eq_refl)).
Defined.

Lemma report_lost_items_witness :
  (let w' := snd (reportLostItems example_stringify example_name example_dump
                    nearly_full_ledger) in
   reporter_calls w'
   = [CallTrackTrace "AI (Internal): Internal report DATALOSS: 3"; CallFlush] /\
   fst (getIssuesReported w') = Ret (Num 10) /\
   fst (getNumberOfLostItems w') = Ret (Num 0)) /\
  (let w' := snd (reportLostItems example_stringify example_name example_dump
                    full_ledger) in
   reporter_calls w' = [] /\
   fst (getIssuesReported w') = Ret (Num 10) /\
   fst (getNumberOfLostItems w') = Ret (Num 0)).
Proof.
  split.
  - destruct (report_lost_items example_stringify example_name example_dump
                nearly_full_ledger 9 3 eq_refl eq_refl eq_refl eq_refl eq_refl eq_refl eq_refl)
      as (_ & Hl & (Hc & Hi) & _).
    split; [exact Hc | split; [exact Hi | exact Hl]].
  - destruct (report_lost_items example_stringify example_name example_dump
                full_ledger 10 3 eq_refl eq_refl eq_refl eq_refl eq_refl eq_refl eq_refl)
      as (_ & Hl & (Hc & Hi) & _).
    split; [exact Hc | split; [exact Hi | exact Hl]].
Defined.

(** C1, counterexample: the Ledger is enabled, nothing has been reported,
    three items are lost and [trackTrace] throws; after [reportLostItems]
    no [issuesReported] has been persisted and [getIssuesReported()] is
    still 0, while [itemsQueued] is "0". *)
Lemma failed_report_leaves_issuesReported :
  ledger_enabled failing_report_ledger = true /\
  fst (getIssuesReported failing_report_ledger) = Ret (Num 0) /\
  fst (getNumberOfLostItems failing_report_ledger) = Ret (Num 3) /\
  reporter_throws failing_report_ledger = true /\
  let w' := snd (reportLostItems example_stringify example_name example_dump
                   failing_report_ledger) in
  reporter_calls w' = [CallTrackTrace "AI (Internal): Internal report DATALOSS: 3"] /\
  persisted ISSUES_REPORTED_KEY w' = None /\
  fst (getIssuesReported w') = Ret (Num 0) /\
  persisted ITEMS_QUEUED_KEY w' = Some "0".
Proof. vm_compute. repeat split. Qed.

Lemma failed_report_is_not_counted_witness :
  let w' := snd (reportLostItems example_stringify example_name example_dump
                   failing_report_ledger) in
  persisted ISSUES_REPORTED_KEY w' = None /\
  fst (getIssuesReported w') = Ret (Num 0) /\
  persisted ITEMS_QUEUED_KEY w' = Some "0" /\
  fst (getNumberOfLostItems w') = Ret (Num 0).
Proof.
  exact (failed_report_is_not_counted example_stringify example_name example_dump
           failing_report_ledger 0 3 eq_refl eq_refl eq_refl eq_refl eq_refl eq_refl eq_refl eq_refl).
Defined.

(** C2: on an enabled Ledger whose next storage call throws, [reset] and
    [getIssuesReported] let the exception through to the caller, where
    [incrementItemsQueued], [decrementItemsQueued] and
    [getNumberOfLostItems] catch it. *)
Theorem reset_and_getIssuesReported_propagate :
  ledger_enabled quota_ledger = true /\
  fst (reset quota_ledger) = Throw quota_error /\
  fst (getIssuesReported quota_ledger) = Throw quota_error /\
  fst (incrementItemsQueued quota_ledger) = Ret tt /\
  fst (decrementItemsQueued (Num 1) quota_ledger) = Ret tt /\
  fst (getNumberOfLostItems quota_ledger) = Ret (Num 0).
Proof. vm_compute. repeat split. Qed.

(** ** Further properties of the Diagnostic Log *)

Section LogExtras.

Variable js : Properties -> Result string.

Lemma perform_ops_cons o os w :
  perform_ops js (o :: os) w =
  match perform_op js o w with
  | (Ret _, w1) => perform_ops js os w1
  | (Throw e, w1) => (Throw e, w1)
  end.
Proof. reflexivity. Qed.

Lemma silenced_ops os : forall w,
  MAX_INTERNAL_MESSAGE_LIMIT w <= 0 ->
  0 <= _messageCount w ->
  queue (snd (perform_ops js os w)) = queue w.
Proof.
  induction os as [|o os IH]; intros w Hlim Hc; [reflexivity|].
  rewrite perform_ops_cons.
  destruct o as [c|]; simpl perform_op.
  - destruct (throttled_perform js c w) as (Hq & Hc' & Hl); [lia|].
    destruct (perform js c w) as [[[]|e] w1]; simpl in *; [|exact Hq].
    rewrite IH; [exact Hq | lia | lia].
  - unfold resetInternalMessageCount, modify. rewrite IH; simpl; [reflexivity|lia|lia].
Qed.

(** X1: a negative limit is accepted by [setMaxInternalMessageLimit], and
    from then on nothing is queued any more, neither a message nor the
    sentinel, whatever is recorded and however often the counter is reset. *)
Theorem negative_limit_silences_the_queue (n : Z) os w :
  n < 0 ->
  0 <= _messageCount w ->
  fst (setMaxInternalMessageLimit (Num n) w) = Ret tt /\
  queue (snd (perform_ops js os (snd (setMaxInternalMessageLimit (Num n) w)))) = queue w.
Proof.
  intros Hn Hc. destruct n as [|p|p]; try lia.
  split; [reflexivity|]. simpl setMaxInternalMessageLimit.
  unfold modify. cbn [snd]. rewrite silenced_ops; simpl; [reflexivity|lia|lia].
Qed.

(** X2: between two resets the queue grows by at most the room left under
    the limit, plus one entry for the sentinel, whatever is called, with
    whatever message and whatever the console does; the counter never
    decreases and never passes the limit it started under. *)
Theorem queue_growth_is_bounded cs w :
  let w' := snd (perform_all js cs w) in
  Z.of_nat (length (queue w'))
    <= Z.of_nat (length (queue w))
       + Z.max 0 (MAX_INTERNAL_MESSAGE_LIMIT w - _messageCount w)
       + (if _messageCount w <? MAX_INTERNAL_MESSAGE_LIMIT w then 1 else 0) /\
  _messageCount w <= _messageCount w' /\
  _messageCount w' <= Z.max (_messageCount w) (MAX_INTERNAL_MESSAGE_LIMIT w).
Proof.
  destruct (queue_growth js cs w) as (_ & H1 & H2 & H3 & H4). cbv zeta.
  set (w' := snd (perform_all js cs w)) in *.
  destruct (_messageCount w <? MAX_INTERNAL_MESSAGE_LIMIT w) eqn:E.
  - apply Z.ltb_lt in E. specialize (H2 E).
    rewrite H4. simpl.
    destruct (_messageCount w' =? MAX_INTERNAL_MESSAGE_LIMIT w); lia.
  - apply Z.ltb_ge in E. specialize (H3 E). rewrite H4. simpl. lia.
Qed.

(** X3: [resetInternalMessageCount] reopens the throttle whatever the
    counter was and keeps the queue: the recording calls that follow are
    appended to the old queue up to the limit, then the sentinel. *)
Theorem reset_reopens_the_throttle (L : nat) cs w :
  enableDebugExceptions w = false ->
  console_quiet w = true ->
  MAX_INTERNAL_MESSAGE_LIMIT w = Z.of_nat L ->
  forallb (records js w) cs = true ->
  exists w',
    perform_all js cs (snd (resetInternalMessageCount w)) = (Ret tt, w') /\
    queue w' = queue w ++ take L (map call_value cs)
               ++ (if (0 <? L)%nat && (L <=? length cs)%nat
                   then [VRef (length (heap w))] else []) /\
    _messageCount w' = Z.of_nat (min L (length cs)).
Proof.
  intros Hd Hq HL Hall.
  destruct (perform_all_records js cs (snd (resetInternalMessageCount w)) Hd Hq Hall)
    as (w' & E & _ & Hqueue & Hcount & _).
  simpl in Hqueue, Hcount. rewrite HL, Z.sub_0_r, Nat2Z.id in Hqueue, Hcount.
  exists w'. done.
Qed.

(** X4: a message object recorded twice is prefixed twice: the second call
    puts its prefix before the one of the first, and since the queue holds
    the object itself, an entry queued by the first call reads with both. *)
Theorem recording_twice_prefixes_twice a1 a2 s1 s2 l o text w :
  enableDebugExceptions w = false ->
  heap w !! l = Some o ->
  message o = Some text ->
  let w1 := snd (record js a1 s1 (VRef l) w) in
  let w2 := snd (record js a2 s2 (VRef l) w1) in
  heap w2 !! l
  = Some {| message := Some (prefix_of a2 +:+ prefix_of a1 +:+ text);
            properties := properties o |}.
Proof.
  intros Hd Hl Hm w1 w2.
  pose proof (record_prefix js a1 s1 l o text w Hd Hl Hm) as H1. fold w1 in H1.
  assert (Hd1 : enableDebugExceptions w1 = false).
  { destruct (perform_cases js (ViaRecord a1 s1 (VRef l)) w) as (Hs & _).
    simpl perform in Hs. fold w1 in Hs. unfold log_settings in Hs. congruence. }
  exact (record_prefix js a2 s2 l _ _ w1 Hd1 H1 eq_refl).
Qed.

Lemma warnToConsole_writes t w :
  console_writes w = true ->
  warnToConsole t w = (Ret tt, set_console_lines (console_lines w ++ [t]) w).
Proof.
  unfold warnToConsole, console_writes. rewrite bind_gets.
  destruct (console w) as [[wn lg]|]; simpl; [|discriminate].
  destruct wn; simpl; try discriminate; [|reflexivity].
  destruct lg; simpl; try discriminate. reflexivity.
Qed.

(** X5: with debug exceptions off and a console method that returns, a
    report call writes the prefixed text (followed by the JSON of the
    properties when they are an object) to the console before it looks at
    the throttle or at the severity, so that a message that is not queued is
    still written; the sentinel text follows when this call reaches the
    limit. *)
Theorem report_call_writes_to_console a sev l o text line w :
  enableDebugExceptions w = false ->
  console_writes w = true ->
  heap w !! l = Some o ->
  message o = Some text ->
  console_text js a text (properties o) = Some line ->
  console_lines (snd (record js a sev (VRef l) w))
  = console_lines w ++ line
      :: (if (_messageCount w <? MAX_INTERNAL_MESSAGE_LIMIT w)
             && (verboseLogging w || is_CRITICAL sev)
             && (_messageCount w + 1 =? MAX_INTERNAL_MESSAGE_LIMIT w)
          then ["AI (Internal): Internal events throttle limit per PageView reached for this app."]
          else []).
Proof.
  intros Hd Hcw Hl Hm Hline.
  rewrite (record_unfold js a sev l o text w Hd Hl Hm).
  set (w1 := prefixed_world a l o text w).
  assert (Hstep : forall t,
    bind (warnToConsole t) (fun _ => logInternalMessage sev (VRef l)) w1
    = logInternalMessage sev (VRef l) (set_console_lines (console_lines w ++ [t]) w1)).
  { intros t. unfold bind. by rewrite (warnToConsole_writes t w1 Hcw). }
  assert (Hlog : forall t,
    console_lines (snd (logInternalMessage sev (VRef l)
                          (set_console_lines (console_lines w ++ [t]) w1)))
    = console_lines w ++ t
        :: (if (_messageCount w <? MAX_INTERNAL_MESSAGE_LIMIT w)
               && (verboseLogging w || is_CRITICAL sev)
               && (_messageCount w + 1 =? MAX_INTERNAL_MESSAGE_LIMIT w)
            then ["AI (Internal): Internal events throttle limit per PageView reached for this app."]
            else [])).
  { intros t. rewrite logInternalMessage_unfold. cbn [MAX_INTERNAL_MESSAGE_LIMIT
      _messageCount verboseLogging set_console_lines w1 prefixed_world set_heap].
    rewrite Z.leb_antisym.
    destruct (_messageCount w <? MAX_INTERNAL_MESSAGE_LIMIT w); simpl negb; cbv iota;
      [|reflexivity].
    destruct (verboseLogging w || is_CRITICAL sev); [|reflexivity].
    cbv zeta.
    destruct (_messageCount w + 1 =? MAX_INTERNAL_MESSAGE_LIMIT w);
      [|reflexivity].
    rewrite warnToConsole_writes by exact Hcw. simpl. by rewrite <- app_assoc. }
  unfold console_text in Hline.
  destruct (typeof_object (properties o)).
  - unfold stringify. unfold bind at 2.
    destruct (js (properties o)) as [json|e]; [|discriminate].
    injection Hline as <-.
    rewrite <- (Hlog ((prefix_of a +:+ text) +:+ " properties: " +:+ json)).
    rewrite <- Hstep. reflexivity.
  - injection Hline as <-. rewrite Hstep. apply Hlog.
Qed.

End LogExtras.

(** ** Further properties of the Loss Ledger *)

Lemma ledger_only_ret {A} (a : A) : ledger_only (ret a).
Proof. intros w. reflexivity. Qed.

Lemma ledger_only_throw {A} e : ledger_only (@throw A e).
Proof. intros w. reflexivity. Qed.

Lemma ledger_only_gets {A} (f : World -> A) : ledger_only (gets f).
Proof. intros w. reflexivity. Qed.

Lemma ledger_only_bind {A B} (c : M A) (k : A -> M B) :
  ledger_only c -> (forall a, ledger_only (k a)) -> ledger_only (bind c k).
Proof.
  intros Hc Hk w. unfold bind. specialize (Hc w).
  destruct (c w) as [[a|e] w1]; simpl in *; [|exact Hc].
  by rewrite (Hk a w1).
Qed.

Lemma ledger_only_try_catch {A} (c : M A) (h : Thrown -> M A) :
  ledger_only c -> (forall e, ledger_only (h e)) -> ledger_only (try_catch c h).
Proof.
  intros Hc Hh w. unfold try_catch. specialize (Hc w).
  destruct (c w) as [[a|e] w1]; simpl in *; [exact Hc|].
  by rewrite (Hh e w1).
Qed.

Lemma ledger_only_if {A} (b : bool) (c1 c2 : M A) :
  ledger_only c1 -> ledger_only c2 -> ledger_only (if b then c1 else c2).
Proof. by destruct b. Qed.

Lemma ledger_only_storage_call {A} present (run : Storage -> A * gmap string string) :
  ledger_only (storage_call present run).
Proof.
  intros w. unfold storage_call.
  destruct (sessionStorage w) as [s|]; [|reflexivity].
  destruct (present s); [|reflexivity].
  destruct (faults s) as [|[e|] fs]; try reflexivity; by destruct (run s).
Qed.

Lemma ledger_only_call_reporter m c : ledger_only (call_reporter m c).
Proof.
  intros w. unfold call_reporter. rewrite bind_gets.
  destruct (appInsights w) as [ai|]; [|reflexivity].
  destruct (m ai); reflexivity.
Qed.

Create HintDb ledger_only.
#[local] Hint Resolve ledger_only_ret ledger_only_throw ledger_only_gets
  ledger_only_storage_call ledger_only_call_reporter : ledger_only.

Ltac ledger_only_tac :=
  repeat first
    [ assumption
    | solve [auto with ledger_only]
    | progress cbv zeta
    | apply ledger_only_bind; [|intros ?]
    | apply ledger_only_try_catch; [|intros ?]
    | apply ledger_only_if ].

Lemma ledger_only_isEnabled : ledger_only isEnabled.
Proof. apply ledger_only_gets. Qed.

Lemma ledger_only_reset : ledger_only reset.
Proof.
  unfold reset, sessionStorage_setItem. pose proof ledger_only_isEnabled.
  ledger_only_tac.
Qed.

Lemma ledger_only_getIssuesReported : ledger_only getIssuesReported.
Proof.
  unfold getIssuesReported, sessionStorage_getItem. pose proof ledger_only_isEnabled.
  ledger_only_tac.
Qed.

Lemma ledger_only_getNumberOfLostItems : ledger_only getNumberOfLostItems.
Proof.
  unfold getNumberOfLostItems, sessionStorage_getItem. pose proof ledger_only_isEnabled.
  ledger_only_tac.
Qed.

Lemma ledger_only_incrementItemsQueued : ledger_only incrementItemsQueued.
Proof.
  unfold incrementItemsQueued, sessionStorage_setItem.
  pose proof ledger_only_isEnabled. pose proof ledger_only_getNumberOfLostItems.
  ledger_only_tac.
Qed.

Lemma ledger_only_decrementItemsQueued n : ledger_only (decrementItemsQueued n).
Proof.
  unfold decrementItemsQueued, sessionStorage_setItem.
  pose proof ledger_only_isEnabled. pose proof ledger_only_getNumberOfLostItems.
  ledger_only_tac.
Qed.

Lemma ledger_only_shouldReport : ledger_only shouldReport.
Proof.
  unfold shouldReport.
  pose proof ledger_only_isEnabled. pose proof ledger_only_getNumberOfLostItems.
  pose proof ledger_only_getIssuesReported.
  ledger_only_tac.
Qed.

(** X6: [reset], [getIssuesReported], [incrementItemsQueued],
    [decrementItemsQueued] and [getNumberOfLostItems] never touch the
    Diagnostic Log: the message objects, the queue, the counter, the
    settings and the console output are as before, whatever the backend
    does. *)
Theorem ledger_operations_leave_the_log w :
  log_part (snd (reset w)) = log_part w /\
  log_part (snd (getIssuesReported w)) = log_part w /\
  log_part (snd (incrementItemsQueued w)) = log_part w /\
  (forall n, log_part (snd (decrementItemsQueued n w)) = log_part w) /\
  log_part (snd (getNumberOfLostItems w)) = log_part w.
Proof.
  split; [apply ledger_only_reset|].
  split; [apply ledger_only_getIssuesReported|].
  split; [apply ledger_only_incrementItemsQueued|].
  split; [intros n; apply ledger_only_decrementItemsQueued|].
  apply ledger_only_getNumberOfLostItems.
Qed.

Lemma read_twice_number key w n w' :
  bind (sessionStorage_getItem key)
       (fun v => if isNaN (ToNumber v) then ret (Num 0)
                 else bind (sessionStorage_getItem key) (fun v' => ret (ToNumber v'))) w
  = (Ret n, w') ->
  exists z, n = Num z.
Proof.
  unfold bind, sessionStorage_getItem, storage_call.
  destruct (sessionStorage w) as [s|]; [|discriminate].
  destruct (has_getItem s) eqn:Hg; [|discriminate].
  assert (Hv : forall v : option string, isNaN (ToNumber v) = false -> exists z, ToNumber v = Num z).
  { intros v. destruct (ToNumber v); [discriminate|eauto]. }
  destruct (faults s) as [|[e|] fs]; try discriminate; cbn [items has_getItem faults sessionStorage set_sessionStorage];
    destruct (isNaN (ToNumber (items s !! key))) eqn:E;
    try (intros [= <- _]; by exists 0);
    rewrite ?Hg; cbn [tail].
  - intros [= <- _]. by apply Hv.
  - destruct fs as [|[e|] fs]; try discriminate; intros [= <- _]; by apply Hv.
Qed.

(** X7: [getNumberOfLostItems] always returns, and [getIssuesReported]
    returns or throws what the backend threw; what they return is a number,
    never NaN, whatever string is stored. *)
Theorem getters_never_return_NaN w :
  (exists z, fst (getNumberOfLostItems w) = Ret (Num z)) /\
  ((exists z, fst (getIssuesReported w) = Ret (Num z))
   \/ exists e, fst (getIssuesReported w) = Throw e).
Proof.
  split.
  - unfold getNumberOfLostItems, try_catch.
    destruct (bind isEnabled _ w) as [[n|e] w'] eqn:E; [|by exists 0].
    unfold bind at 1 in E. rewrite isEnabled_spec in E.
    destruct (ledger_enabled w).
    + apply read_twice_number in E as [z ->]. by exists z.
    + injection E as <- _. by exists 0.
  - unfold getIssuesReported.
    destruct (bind isEnabled _ w) as [[n|e] w'] eqn:E; [|right; by exists e].
    left. unfold bind at 1 in E. rewrite isEnabled_spec in E.
    destruct (ledger_enabled w); simpl negb in E; cbv iota in E.
    + apply read_twice_number in E as [z ->]. by exists z.
    + injection E as <- _. by exists 0.
Qed.

Lemma log_part_settings w1 w :
  log_part w1 = log_part w ->
  enableDebugExceptions w1 = enableDebugExceptions w /\
  console_quiet w1 = console_quiet w /\
  heap w1 = heap w /\ queue w1 = queue w /\ _messageCount w1 = _messageCount w /\
  MAX_INTERNAL_MESSAGE_LIMIT w1 = MAX_INTERNAL_MESSAGE_LIMIT w /\
  verboseLogging w1 = verboseLogging w.
Proof.
  unfold log_part, log_settings. intros H. injection H. intros.
  repeat split; try congruence.
  unfold console_quiet. replace (console w1) with (console w) by congruence.
  reflexivity.
Qed.

Section ReportExtras.

Variable js : Properties -> Result string.
Variable name_of dump_of : Thrown -> string.

Hypothesis literals_serialize :
  forall fields, is_Ret (js (PropObject (ObjLiteral fields))) = true.

(** The [catch] block of [reportLostItems] on a world where the Diagnostic
    Log can do its work. *)
Lemma catch_block_returns e w :
  enableDebugExceptions w = false ->
  console_quiet w = true ->
  fst (bind (new_InternalLogMessage
               (Some ("Failed to report data loss: " +:+ name_of e))
               (PropObject (ObjLiteral [("exception", dump_of e)])))
            (fun m => throwInternalNonUserActionable js CRITICAL (VRef m)) w)
  = Ret tt.
Proof.
  intros Hd Hq. unfold bind, new_InternalLogMessage. cbn beta iota zeta delta [falsy].
  apply (record_quiet js NonUserActionable CRITICAL); [exact Hd | exact Hq |].
  simpl. rewrite list_lookup_middle by reflexivity. simpl. apply literals_serialize.
Qed.

(** X8: with debug exceptions off, a console that does not throw and a
    [JSON.stringify] that accepts object literals, [reportLostItems] never
    throws, whatever the backend and the reporter do. *)
Theorem reportLostItems_never_throws w :
  enableDebugExceptions w = false ->
  console_quiet w = true ->
  fst (reportLostItems js name_of dump_of w) = Ret tt.
Proof.
  intros Hd Hq. unfold reportLostItems, try_finally.
  match goal with |- context [try_catch ?B ?H w] =>
    assert (HB : ledger_only B);
    [| assert (Hbody : fst (try_catch B H w) = Ret tt);
       [| destruct (try_catch B H w) as [r w1]; simpl in Hbody; subst r ] ]
  end.
  - unfold sessionStorage_setItem.
    pose proof ledger_only_shouldReport. pose proof ledger_only_getNumberOfLostItems.
    pose proof ledger_only_getIssuesReported.
    ledger_only_tac.
  - unfold try_catch. specialize (HB w).
    match goal with |- context [match ?c w with _ => _ end] =>
      destruct (c w) as [[[]|e] w1] end; [reflexivity|].
    simpl in HB. apply log_part_settings in HB as (Hd1 & Hq1 & _).
    apply catch_block_returns; congruence.
  - unfold try_catch. destruct (reset w1) as [[[]|e] w2]; reflexivity.
Qed.

Lemma catch_block_logs e w :
  enableDebugExceptions w = false ->
  console_quiet w = true ->
  _messageCount w + 1 < MAX_INTERNAL_MESSAGE_LIMIT w ->
  exists w',
    bind (new_InternalLogMessage
            (Some ("Failed to report data loss: " +:+ name_of e))
            (PropObject (ObjLiteral [("exception", dump_of e)])))
         (fun m => throwInternalNonUserActionable js CRITICAL (VRef m)) w
    = (Ret tt, w') /\
    ledger_part w' = ledger_part w /\
    queue w' = queue w ++ [VRef (length (heap w))] /\
    _messageCount w' = _messageCount w + 1 /\
    heap w' !! length (heap w)
    = Some {| message := Some ("AI (Internal): Failed to report data loss: " +:+ name_of e);
              properties := PropObject (ObjLiteral [("exception", dump_of e)]) |}.
Proof.
  intros Hd Hq Hroom. unfold bind, new_InternalLogMessage.
  cbn beta iota zeta delta [falsy].
  set (o := {| message := Some ("Failed to report data loss: " +:+ name_of e);
               properties := PropObject (ObjLiteral [("exception", dump_of e)]) |}).
  set (w2 := set_heap (heap w ++ [o]) w).
  assert (Hl : heap w2 !! length (heap w) = Some o)
    by (subst w2; simpl; by rewrite list_lookup_middle).
  assert (Hrec : records js w2 (ViaRecord NonUserActionable CRITICAL (VRef (length (heap w)))) = true).
  { unfold records, well_formed. simpl is_CRITICAL. rewrite orb_true_r.
    match goal with |- context [match ?x with Some _ => _ | None => _ end] =>
      replace x with (Some o) by (symmetry; exact Hl) end.
    unfold loggable. simpl. apply literals_serialize. }
  destruct (perform_records js _ w2 Hd Hq Hrec) as (w' & E & _ & _ & _ & Hcase).
  destruct (perform_cases js (ViaRecord NonUserActionable CRITICAL (VRef (length (heap w)))) w2)
    as (_ & Hled & _).
  pose proof (record_prefix js NonUserActionable CRITICAL _ o _ w2 Hd Hl eq_refl) as Hp.
  simpl perform in E, Hled. unfold record in Hp, E, Hled. rewrite E in Hp, Hled. simpl in Hp, Hled.
  exists w'. split; [exact E|]. split; [exact Hled|].
  simpl in Hcase.
  destruct Hcase as [(? & _) | [(_ & Hq' & Hc' & _) | (? & _)]]; try lia.
  split; [exact Hq'|]. split; [exact Hc'|]. exact Hp.
Qed.

(** X9: when the reporter throws [e] during a report (Ledger enabled,
    backend not throwing, both stored counters read as the host reads them,
    under the report limit, positive loss), the
    failure reaches the Diagnostic Log: with debug exceptions off, a console
    that does not throw and room under the throttle limit,
    [reportLostItems] returns and has queued one new message, "AI
    (Internal): Failed to report data loss: " followed by the name of [e],
    with the dump of [e] as its [exception] property. *)
Theorem failed_report_is_logged w n k e :
  ledger_enabled w = true ->
  no_faults w = true ->
  plain_ledger w = true ->
  reporter_error w = Some e ->
  fst (getIssuesReported w) = Ret (Num n) ->
  n < 10 ->
  fst (getNumberOfLostItems w) = Ret (Num k) ->
  0 < k ->
  enableDebugExceptions w = false ->
  console_quiet w = true ->
  _messageCount w + 1 < MAX_INTERNAL_MESSAGE_LIMIT w ->
  let w' := snd (reportLostItems js name_of dump_of w) in
  fst (reportLostItems js name_of dump_of w) = Ret tt /\
  queue w' = queue w ++ [VRef (length (heap w))] /\
  _messageCount w' = _messageCount w + 1 /\
  heap w' !! length (heap w)
  = Some {| message := Some ("AI (Internal): Failed to report data loss: " +:+ name_of e);
            properties := PropObject (ObjLiteral [("exception", dump_of e)]) |}.
Proof.
  intros He Hf _ Herr Hn Hlt Hk Hpos Hd Hq Hroom w'.
  destruct (healthy_intro w He Hf) as (s & Hh).
  destruct (getters_healthy w s Hh) as (Hgi & Hgl).
  rewrite Hgi in Hn. rewrite Hgl in Hk. injection Hn as Hn. injection Hk as Hk.
  assert (Hgo : js_lt (or_zero (stored ISSUES_REPORTED_KEY w)) LIMIT_PER_SESSION
                && js_lt (Num 0) (or_zero (stored ITEMS_QUEUED_KEY w)) = true).
  { rewrite Hn, Hk. simpl. apply andb_true_iff. split; by apply Z.ltb_lt. }
  assert (Hmain : exists wf,
    reportLostItems js name_of dump_of w = (Ret tt, wf) /\
    queue wf = queue w ++ [VRef (length (heap w))] /\
    _messageCount wf = _messageCount w + 1 /\
    heap wf !! length (heap w)
    = Some {| message := Some ("AI (Internal): Failed to report data loss: " +:+ name_of e);
              properties := PropObject (ObjLiteral [("exception", dump_of e)]) |}).
  2: { destruct Hmain as (wf & E & H). subst w'. rewrite E. split; [reflexivity|exact H]. }
  assert (Hcatch : forall w1, healthy w1 s -> log_part w1 = log_part w ->
    exists wf,
      (let '(r0, w0) :=
         bind (new_InternalLogMessage
                 (Some ("Failed to report data loss: " +:+ name_of e))
                 (PropObject (ObjLiteral [("exception", dump_of e)])))
              (fun m => throwInternalNonUserActionable js CRITICAL (VRef m)) w1 in
       let '(r1, w2) := try_catch reset (fun _ => ret tt) w0 in
       match r1 with Ret _ => (r0, w2) | Throw e' => (Throw e', w2) end)
      = (Ret tt, wf) /\
      queue wf = queue w ++ [VRef (length (heap w))] /\
      _messageCount wf = _messageCount w + 1 /\
      heap wf !! length (heap w)
      = Some {| message := Some ("AI (Internal): Failed to report data loss: " +:+ name_of e);
                properties := PropObject (ObjLiteral [("exception", dump_of e)]) |}).
  { intros w1 Hh1 Hlp.
    apply log_part_settings in Hlp as (Hd1 & Hq1 & Hheap & Hqueue & Hc1 & Hl1 & _).
    destruct (catch_block_logs e w1) as (w0 & E & Hled & Hq0 & Hc0 & Hh0);
      [congruence | congruence | lia |].
    rewrite E.
    pose proof (healthy_ledger_part w1 w0 s Hled Hh1) as Hhw0.
    rewrite (finally_reset (Ret tt) w0 s Hhw0).
    rewrite Hheap in Hq0, Hh0.
    eexists. split; [reflexivity|].
    simpl. rewrite Hq0, Hc0, Hqueue, Hc1. done. }
  unfold reportLostItems, try_finally, try_catch at 1.
  run_with (shouldReport_healthy w s Hh). rewrite Hgo.
  run_with (getNumberOfLostItems_healthy w s Hh).
  unfold reporter_error in Herr.
  destruct (appInsights w) as [ai|] eqn:Ha; [|discriminate].
  destruct (trackTrace ai) as [| |e1] eqn:Ht; try discriminate.
  - destruct (flush ai) as [| |e2] eqn:Hfl; try discriminate.
    injection Herr as ->.
    run_with (call_reporter_returns trackTrace _ w ai Ha Ht).
    match goal with |- context [bind (call_reporter flush CallFlush) _ ?w1] =>
      set (w1' := w1) end.
    run_with (call_reporter_throws flush CallFlush w1' ai e Ha Hfl).
    apply Hcatch; [exact Hh | reflexivity].
  - injection Herr as ->.
    run_with (call_reporter_throws trackTrace _ w ai e Ha Ht).
    apply Hcatch; [exact Hh | reflexivity].
Qed.

End ReportExtras.

Section SessionExtras.

Variable js : Properties -> Result string.
Variable name_of dump_of : Thrown -> string.

(** X10: when nothing is lost (the stored count, a value read as the host
    reads it, is 0 or less), [reportLostItems] calls the reporter not at all, whatever the reporter
    is, leaves [issuesReported] and the Diagnostic Log alone, and writes "0"
    as [itemsQueued]. *)
Theorem no_loss_no_report w k :
  ledger_enabled w = true ->
  no_faults w = true ->
  plain_numeral (persisted ITEMS_QUEUED_KEY w) = true ->
  fst (getNumberOfLostItems w) = Ret (Num k) ->
  k <= 0 ->
  let w' := snd (reportLostItems js name_of dump_of w) in
  fst (reportLostItems js name_of dump_of w) = Ret tt /\
  reporter_calls w' = reporter_calls w /\
  persisted ISSUES_REPORTED_KEY w' = persisted ISSUES_REPORTED_KEY w /\
  persisted ITEMS_QUEUED_KEY w' = Some "0" /\
  log_part w' = log_part w.
Proof.
  intros He Hf _ Hk Hle w'.
  destruct (healthy_intro w He Hf) as (s & Hh).
  destruct (getters_healthy w s Hh) as (_ & Hgl).
  rewrite Hgl in Hk. injection Hk as Hk.
  assert (Hgo : js_lt (or_zero (stored ISSUES_REPORTED_KEY w)) LIMIT_PER_SESSION
                && js_lt (Num 0) (or_zero (stored ITEMS_QUEUED_KEY w)) = false).
  { rewrite Hk. simpl. replace (0 <? k) with false by (symmetry; apply Z.ltb_ge; lia).
    apply andb_false_r. }
  subst w'. rewrite (reportLostItems_skips js name_of dump_of w s Hh Hgo). simpl.
  split; [done|]. split; [done|]. split; [|split; [|done]].
  - unfold persisted. simpl. rewrite lookup_insert_ne by exact keys_differ.
    destruct Hh as (-> & _). done.
  - unfold persisted. simpl. by rewrite lookup_insert_eq.
Qed.

Lemma or_zero_number n : exists z, or_zero n = Num z.
Proof. destruct n; simpl; eauto. Qed.

Lemma stored_issues_with_items w s v :
  healthy w s ->
  stored ISSUES_REPORTED_KEY (with_items (<[ITEMS_QUEUED_KEY := v]> (items s)) w)
  = stored ISSUES_REPORTED_KEY w.
Proof.
  intros Hh. rewrite stored_with_items, lookup_insert_ne by exact keys_differ.
  symmetry. apply (stored_healthy _ w s Hh).
Qed.

Lemma reports_sent_app w cs :
  reports_sent (set_reporter_calls (reporter_calls w ++ cs) w)
  = (reports_sent w + length (filter (fun c => is_trackTrace c = true) cs))%nat.
Proof. unfold reports_sent. simpl. by rewrite filter_app, length_app. Qed.

Lemma ledger_op_step o w s n :
  healthy w s ->
  reporter_returns w = true ->
  or_zero (stored ISSUES_REPORTED_KEY w) = Num n ->
  exists w' s' n',
    ledger_op js name_of dump_of o w = (Ret tt, w') /\
    healthy w' s' /\
    reporter_returns w' = true /\
    or_zero (stored ISSUES_REPORTED_KEY w') = Num n' /\
    n <= n' /\ (n <= 10 -> n' <= 10) /\
    Z.of_nat (reports_sent w') = Z.of_nat (reports_sent w) + (n' - n).
Proof.
  intros Hh Hrep Hn.
  assert (Hkeep : forall v,
    let w' := with_items (<[ITEMS_QUEUED_KEY := v]> (items s)) w in
    exists s' n',
      healthy w' s' /\ reporter_returns w' = true /\
      or_zero (stored ISSUES_REPORTED_KEY w') = Num n' /\
      n <= n' /\ (n <= 10 -> n' <= 10) /\
      Z.of_nat (reports_sent w') = Z.of_nat (reports_sent w) + (n' - n)).
  { intros v w'. eexists _, n. split; [apply (healthy_with_items w s _ Hh)|].
    split; [exact Hrep|]. subst w'. rewrite (stored_issues_with_items w s v Hh).
    split; [exact Hn|]. split; [lia|]. split; [intros; lia|].
    unfold reports_sent. simpl. lia. }
  assert (Hsame : exists s' n',
      healthy w s' /\ reporter_returns w = true /\
      or_zero (stored ISSUES_REPORTED_KEY w) = Num n' /\
      n <= n' /\ (n <= 10 -> n' <= 10) /\
      Z.of_nat (reports_sent w) = Z.of_nat (reports_sent w) + (n' - n)).
  { exists s, n. split; [exact Hh|]. split; [exact Hrep|]. split; [exact Hn|].
    split; [lia|]. split; [intros; lia|]. lia. }
  destruct o as [| |d| | |]; simpl ledger_op.
  - rewrite (reset_healthy w s Hh).
    destruct (Hkeep "0") as (s' & n' & H). eexists _, s', n'. split; [reflexivity|exact H].
  - rewrite (incrementItemsQueued_healthy w s Hh).
    match goal with |- context [with_items (<[_ := ?v]> _) w] =>
      destruct (Hkeep v) as (s' & n' & H) end.
    eexists _, s', n'. split; [reflexivity|exact H].
  - rewrite (decrementItemsQueued_healthy d w s Hh).
    match goal with |- context [with_items (<[_ := ?v]> _) w] =>
      destruct (Hkeep v) as (s' & n' & H) end.
    eexists _, s', n'. split; [reflexivity|exact H].
  - destruct (js_lt (or_zero (stored ISSUES_REPORTED_KEY w)) LIMIT_PER_SESSION
              && js_lt (Num 0) (or_zero (stored ITEMS_QUEUED_KEY w))) eqn:Hgo.
    + rewrite (reportLostItems_reports js name_of dump_of w s Hh Hrep Hgo).
      apply andb_true_iff in Hgo as [Hlt _]. rewrite Hn in Hlt. simpl in Hlt.
      apply Z.ltb_lt in Hlt. rewrite Hn. simpl js_add.
      eexists _, _, (n + 1). split; [reflexivity|].
      split; [do 2 eapply healthy_with_items; exact Hh|].
      split; [exact Hrep|].
      split.
      { rewrite stored_with_items, lookup_insert_ne by exact keys_differ.
        rewrite lookup_insert_eq, ToNumber_toString. reflexivity. }
      split; [lia|]. split; [lia|].
      unfold reports_sent. simpl. rewrite !filter_app, !length_app. simpl. lia.
    + rewrite (reportLostItems_skips js name_of dump_of w s Hh Hgo).
      destruct (Hkeep "0") as (s' & n' & H). eexists _, s', n'. split; [reflexivity|exact H].
  - run_with (getIssuesReported_healthy w s Hh).
    destruct Hsame as (s' & n' & H). exists w, s', n'. split; [reflexivity|exact H].
  - run_with (getNumberOfLostItems_healthy w s Hh).
    destruct Hsame as (s' & n' & H). exists w, s', n'. split; [reflexivity|exact H].
Qed.

(** X11: over any sequence of Ledger operations on an enabled Ledger whose
    backend and reporter do not throw and whose stored counters are at first
    read as the host reads them, [issuesReported] never decreases and
    never passes the limit of 10 it started under, and [trackTrace] is
    called once for each unit it has grown: at most [10 - n] reports in the
    session. *)
Theorem reports_are_capped_per_session os w n :
  ledger_enabled w = true ->
  no_faults w = true ->
  plain_ledger w = true ->
  reporter_returns w = true ->
  fst (getIssuesReported w) = Ret (Num n) ->
  n <= 10 ->
  let w' := snd (ledger_ops js name_of dump_of os w) in
  fst (ledger_ops js name_of dump_of os w) = Ret tt /\
  exists n',
    fst (getIssuesReported w') = Ret (Num n') /\
    n <= n' <= 10 /\
    Z.of_nat (reports_sent w') = Z.of_nat (reports_sent w) + (n' - n).
Proof.
  intros He Hf _ Hrep Hn Hle.
  destruct (healthy_intro w He Hf) as (s & Hh).
  destruct (getters_healthy w s Hh) as (Hgi & _).
  rewrite Hgi in Hn. injection Hn as Hn. clear He Hf Hgi.
  revert w s n Hh Hrep Hn Hle.
  induction os as [|o os IH]; intros w s n Hh Hrep Hn Hle w'.
  - subst w'. simpl. split; [reflexivity|]. exists n.
    destruct (getters_healthy w s Hh) as (-> & _). rewrite Hn.
    split; [reflexivity|]. lia.
  - destruct (ledger_op_step o w s n Hh Hrep Hn)
      as (w1 & s1 & n1 & E & Hh1 & Hrep1 & Hn1 & Hle1 & Hcap1 & Hsent1).
    subst w'. cbn [ledger_ops]. run_with E.
    destruct (IH w1 s1 n1 Hh1 Hrep1 Hn1 (Hcap1 Hle)) as (Hret & n' & Hgi' & Hb & Hsent).
    split; [exact Hret|]. exists n'. split; [exact Hgi'|]. split; lia.
Qed.

(** X20: in debug mode the failure of a report is not swallowed: when
    the reporter throws during a report (Ledger enabled, backend not
    throwing, both stored counters read as the host reads them, under the
    report limit, positive loss) and debug exceptions
    are on, [reportLostItems] throws the new diagnostic message object, with
    its text not prefixed and nothing queued; the [finally] block has still
    reset [itemsQueued] to "0". *)
Theorem failed_report_throws_in_debug_mode w n k e :
  ledger_enabled w = true ->
  no_faults w = true ->
  plain_ledger w = true ->
  reporter_error w = Some e ->
  fst (getIssuesReported w) = Ret (Num n) ->
  n < 10 ->
  fst (getNumberOfLostItems w) = Ret (Num k) ->
  0 < k ->
  enableDebugExceptions w = true ->
  let w' := snd (reportLostItems js name_of dump_of w) in
  fst (reportLostItems js name_of dump_of w) = Throw (ThrownValue (VRef (length (heap w)))) /\
  heap w' !! length (heap w)
  = Some {| message := Some ("Failed to report data loss: " +:+ name_of e);
            properties := PropObject (ObjLiteral [("exception", dump_of e)]) |} /\
  queue w' = queue w /\
  persisted ITEMS_QUEUED_KEY w' = Some "0".
Proof.
  intros He Hf _ Herr Hn Hlt Hk Hpos Hd w'.
  destruct (healthy_intro w He Hf) as (s & Hh).
  destruct (getters_healthy w s Hh) as (Hgi & Hgl).
  rewrite Hgi in Hn. rewrite Hgl in Hk. injection Hn as Hn. injection Hk as Hk.
  assert (Hgo : js_lt (or_zero (stored ISSUES_REPORTED_KEY w)) LIMIT_PER_SESSION
                && js_lt (Num 0) (or_zero (stored ITEMS_QUEUED_KEY w)) = true).
  { rewrite Hn, Hk. simpl. apply andb_true_iff. split; by apply Z.ltb_lt. }
  assert (Hmain : exists wf,
    reportLostItems js name_of dump_of w = (Throw (ThrownValue (VRef (length (heap w)))), wf) /\
    heap wf !! length (heap w)
    = Some {| message := Some ("Failed to report data loss: " +:+ name_of e);
              properties := PropObject (ObjLiteral [("exception", dump_of e)]) |} /\
    queue wf = queue w /\
    persisted ITEMS_QUEUED_KEY wf = Some "0").
  2: { destruct Hmain as (wf & E & H). subst w'. rewrite E. split; [reflexivity|exact H]. }
  assert (Hcatch : forall w1, healthy w1 s -> log_part w1 = log_part w ->
    exists wf,
      (let '(r0, w0) :=
         bind (new_InternalLogMessage
                 (Some ("Failed to report data loss: " +:+ name_of e))
                 (PropObject (ObjLiteral [("exception", dump_of e)])))
              (fun m => throwInternalNonUserActionable js CRITICAL (VRef m)) w1 in
       let '(r1, w2) := try_catch reset (fun _ => ret tt) w0 in
       match r1 with Ret _ => (r0, w2) | Throw e' => (Throw e', w2) end)
      = (Throw (ThrownValue (VRef (length (heap w)))), wf) /\
      heap wf !! length (heap w)
      = Some {| message := Some ("Failed to report data loss: " +:+ name_of e);
                properties := PropObject (ObjLiteral [("exception", dump_of e)]) |} /\
      queue wf = queue w /\
      persisted ITEMS_QUEUED_KEY wf = Some "0").
  { intros w1 Hh1 Hlp.
    apply log_part_settings in Hlp as (Hd1 & _ & Hheap & Hqueue & _).
    unfold bind at 1, new_InternalLogMessage. cbn beta iota zeta delta [falsy].
    match goal with |- context [throwInternalNonUserActionable js CRITICAL ?v ?w2] =>
      set (w2' := w2);
      assert (E : throwInternalNonUserActionable js CRITICAL v w2' = (Throw (ThrownValue v), w2'))
    end.
    { unfold throwInternalNonUserActionable. rewrite bind_gets.
      replace (enableDebugExceptions w2') with true by (subst w2'; simpl; congruence).
      reflexivity. }
    rewrite E.
    assert (Hh2 : healthy w2' s) by exact Hh1.
    rewrite (finally_reset (Throw (ThrownValue (VRef (length (heap w1))))) w2' s Hh2).
    eexists. split; [by rewrite Hheap|].
    subst w2'. simpl. rewrite Hheap, Hqueue.
    split; [by rewrite list_lookup_middle|]. split; [reflexivity|].
    unfold persisted. simpl. by rewrite lookup_insert_eq. }
  unfold reportLostItems, try_finally, try_catch at 1.
  run_with (shouldReport_healthy w s Hh). rewrite Hgo.
  run_with (getNumberOfLostItems_healthy w s Hh).
  unfold reporter_error in Herr.
  destruct (appInsights w) as [ai|] eqn:Ha; [|discriminate].
  destruct (trackTrace ai) as [| |e1] eqn:Ht; try discriminate.
  - destruct (flush ai) as [| |e2] eqn:Hfl; try discriminate.
    injection Herr as ->.
    run_with (call_reporter_returns trackTrace _ w ai Ha Ht).
    match goal with |- context [bind (call_reporter flush CallFlush) _ ?w1] =>
      set (w1' := w1) end.
    run_with (call_reporter_throws flush CallFlush w1' ai e Ha Hfl).
    apply Hcatch; [exact Hh | reflexivity].
  - injection Herr as ->.
    run_with (call_reporter_throws trackTrace _ w ai e Ha Ht).
    apply Hcatch; [exact Hh | reflexivity].
Qed.

End SessionExtras.

(** ** [Initialization]: draining the queue *)

Lemma trace_of_object w v : is_object v = true -> is_Some (trace_of w v).
Proof.
  destruct v as [| |l]; try discriminate. intros _. simpl.
  destruct (heap w !! l) as [o|]; eauto.
Qed.

Lemma trace_entries_returns w entries :
  forallb is_object entries = true ->
  exists calls,
    trace_entries Returns w entries = (calls, Ret tt) /\
    map Some calls = map (trace_of w) entries.
Proof.
  induction entries as [|v rest IH]; intros Hall; [by exists []|].
  simpl in Hall. apply andb_true_iff in Hall as [Hv Hrest].
  destruct (IH Hrest) as (calls & E & Hmap).
  destruct (trace_of_object w v Hv) as [call Hc].
  exists (call :: calls). simpl. rewrite Hc, E. split; [reflexivity|].
  by rewrite Hmap.
Qed.

Lemma trace_entries_prefix m w entries calls e :
  trace_entries m w entries = (calls, Throw e) ->
  exists n, map Some calls = map (trace_of w) (take n entries).
Proof.
  revert calls. induction entries as [|v rest IH]; intros calls; [discriminate|].
  simpl. destruct (trace_of w v) as [call|] eqn:Hc.
  2: { intros [= <- _]. by exists 0%nat. }
  destruct m as [| |e'].
  - intros [= <- _]. by exists 0%nat.
  - destruct (trace_entries Returns w rest) as [calls' r] eqn:E.
    intros [= <- ->]. destruct (IH calls' eq_refl) as [n Hn].
    exists (S n). simpl. by rewrite Hc, Hn.
  - intros [= <- _]. exists 1%nat. simpl. by rewrite Hc, ?take_0.
Qed.

Section DrainExtras.

Variable js : Properties -> Result string.

(** X12: when every queue entry is an object and [trackTrace] returns, one
    tick of the poll calls [trackTrace] once per entry, in queue order, with
    the text the message has at that moment (and with its properties when
    they are an object), and empties the queue; it leaves the throttle
    counter, so a log that was throttled stays so until the counter is
    reset. *)
Theorem poll_sends_and_empties_the_queue ai w :
  trackTrace ai = Returns ->
  forallb is_object (queue w) = true ->
  exists calls w',
    pollInteralLogs_callback ai w = (calls, (Ret tt, w')) /\
    map Some calls = map (trace_of w) (queue w) /\
    queue w' = [] /\
    _messageCount w' = _messageCount w /\
    (MAX_INTERNAL_MESSAGE_LIMIT w <= _messageCount w ->
     forall cs, queue (snd (perform_all js cs w')) = []).
Proof.
  intros Ht Hall. destruct (trace_entries_returns w (queue w) Hall) as (calls & E & Hmap).
  exists calls, (set_queue [] w). unfold pollInteralLogs_callback. rewrite Ht, E.
  repeat split; try done.
  intros Hthr cs.
  destruct (throttled_perform_all js cs (set_queue [] w) Hthr) as (Hq & _). exact Hq.
Qed.

(** X13: a tick that throws, because [trackTrace] throws or because an
    entry is null or undefined, leaves the world and so the whole queue as
    it was; the calls it made are those for a first part of the queue, which
    the next tick makes again. *)
Theorem failed_poll_keeps_the_queue ai w calls e w' :
  pollInteralLogs_callback ai w = (calls, (Throw e, w')) ->
  w' = w /\ exists n, map Some calls = map (trace_of w) (take n (queue w)).
Proof.
  unfold pollInteralLogs_callback.
  destruct (trace_entries (trackTrace ai) w (queue w)) as [calls' [[]|e']] eqn:E;
    [discriminate|].
  intros [= <- <- <-]. split; [reflexivity|].
  apply (trace_entries_prefix _ _ _ _ _ E).
Qed.

Lemma trace_entries_blocked w before v after :
  forallb is_object before = true ->
  is_object v = false ->
  exists calls e,
    trace_entries Returns w (before ++ v :: after) = (calls, Throw e) /\
    map Some calls = map (trace_of w) before.
Proof.
  intros Hall Hv. induction before as [|b before IH].
  - simpl. destruct v; try discriminate; simpl; by eexists [], _.
  - simpl in Hall. apply andb_true_iff in Hall as [Hb Hall].
    destruct (IH Hall) as (calls & e & E & Hmap).
    destruct (trace_of_object w b Hb) as [call Hc].
    exists (call :: calls), e. simpl. rewrite Hc, E. split; [reflexivity|].
    by rewrite Hmap.
Qed.

(** X14: [logInternalMessage] queues a null message as it is (CRITICAL,
    counter under the limit), and from then on the poll cannot get past it:
    each tick sends the entries queued before it again, throws, and leaves
    the queue as it is. *)
Theorem null_message_blocks_the_poll ai w :
  trackTrace ai = Returns ->
  forallb is_object (queue w) = true ->
  _messageCount w < MAX_INTERNAL_MESSAGE_LIMIT w ->
  let w1 := snd (logInternalMessage CRITICAL VNull w) in
  exists rest calls e,
    queue w1 = queue w ++ VNull :: rest /\
    pollInteralLogs_callback ai w1 = (calls, (Throw e, w1)) /\
    map Some calls = map (trace_of w1) (queue w).
Proof.
  intros Ht Hall Hroom w1.
  assert (Hq : exists rest, queue w1 = queue w ++ VNull :: rest).
  { destruct (logInternalMessage_cases CRITICAL VNull w)
      as (_ & _ & [(_ & _ & _ & Hwhy) | [(_ & _ & _ & _ & _ & Hq) | (_ & _ & _ & _ & _ & Hq)]]).
    - destruct Hwhy as [H|H]; [lia|]. rewrite orb_true_r in H. discriminate.
    - by exists [].
    - eexists. exact Hq. }
  destruct Hq as (rest & Hq). exists rest.
  destruct (trace_entries_blocked w1 (queue w) VNull rest Hall eq_refl) as (calls & e & E & Hmap).
  exists calls, e. split; [exact Hq|]. split; [|exact Hmap].
  unfold pollInteralLogs_callback. by rewrite Ht, Hq, E.
Qed.

End DrainExtras.

(** ** [Initialization.emptyQueue] *)

Lemma call_queued_stops before c after w w1 w2 e :
  call_queued before w = (Ret tt, w1) ->
  c w1 = (Throw e, w2) ->
  call_queued (before ++ c :: after) w = (Throw e, w2).
Proof.
  revert w. induction before as [|b before IH]; intros w Hb Hc.
  - injection Hb as <-. simpl. unfold bind. by rewrite Hc.
  - simpl in *. unfold bind in *. destruct (b w) as [[[]|e'] w0]; [|discriminate].
    by apply IH.
Qed.

Section EmptyQueueExtras.

Variable exception_toString : Thrown -> string.
Variable js : Properties -> Result string.

Hypothesis literals_serialize :
  forall fields, is_Ret (js (PropObject (ObjLiteral fields))) = true.

(** X15: when a queued call throws [e], [emptyQueue] runs none of the
    calls after it and leaves the snippet's queue in place (so the calls
    before it would run again); with debug exceptions off and a console that
    does not throw it returns, having created the message "AI (Internal):
    Failed to send queued telemetry" with the text of [e] as its
    [exception] property; the message is a WARNING, so without verbose
    logging it is not queued. *)
Theorem failing_queued_call_stops_emptyQueue before c after w w1 w2 e :
  call_queued before w = (Ret tt, w1) ->
  c w1 = (Throw e, w2) ->
  enableDebugExceptions w2 = false ->
  console_quiet w2 = true ->
  exists w',
    emptyQueue exception_toString js (Some (before ++ c :: after)) w
    = (Ret (Some (before ++ c :: after)), w') /\
    heap w' !! length (heap w2)
    = Some {| message := Some "AI (Internal): Failed to send queued telemetry";
              properties :=
                PropObject (ObjLiteral (if has_toString e
                                        then [("exception", exception_toString e)]
                                        else [])) |} /\
    (verboseLogging w2 = false -> queue w' = queue w2) /\
    ledger_part w' = ledger_part w2.
Proof.
  intros Hb Hc Hd Hq.
  unfold emptyQueue, try_catch.
  run_with (call_queued_stops before c after w w1 w2 e Hb Hc).
  unfold bind at 1, new_InternalLogMessage. cbn beta iota zeta delta [falsy].
  set (m := length (heap w2)).
  set (o0 := {| message := Some "Failed to send queued telemetry";
                properties := PropObject (ObjLiteral []) |}).
  set (w3 := set_heap (heap w2 ++ [o0]) w2).
  set (o1 := {| message := Some "Failed to send queued telemetry";
                properties :=
                  PropObject (ObjLiteral (if has_toString e
                                          then [("exception", exception_toString e)]
                                          else [])) |}).
  assert (Hl3 : heap w3 !! m = Some o0) by (subst w3 m; simpl; by rewrite list_lookup_middle).
  assert (Hw4 : exists w4,
    (if has_toString e
     then write_properties m (PropObject (ObjLiteral [("exception", exception_toString e)]))
     else ret tt) w3 = (Ret tt, w4) /\
    heap w4 !! m = Some o1 /\ log_settings w4 = log_settings w2 /\
    queue w4 = queue w2 /\ ledger_part w4 = ledger_part w2).
  { subst o1. destruct (has_toString e).
    - eexists. unfold write_properties, modify.
      match goal with |- context [match ?x with Some _ => _ | None => _ end] =>
        replace x with (Some o0) by (symmetry; exact Hl3) end.
      split; [reflexivity|]. simpl. split; [|done].
      apply list_lookup_insert_eq. subst m. rewrite length_app. simpl. lia.
    - exists w3. split; [reflexivity|]. split; [exact Hl3|]. done. }
  destruct Hw4 as (w4 & E4 & Hl4 & Hs4 & Hq4 & Hled4).
  run_with E4.
  assert (Hd4 : enableDebugExceptions w4 = false) by (unfold log_settings in Hs4; congruence).
  assert (Hq4' : console_quiet w4 = true).
  { unfold console_quiet in *. unfold log_settings in Hs4.
    replace (console w4) with (console w2) by congruence. exact Hq. }
  pose proof (record_quiet js NonUserActionable WARNING (VRef m) w4 Hd4 Hq4') as Hret.
  pose proof (record_prefix js NonUserActionable WARNING m o1 _ w4 Hd4 Hl4 eq_refl) as Hp.
  pose proof (warning_filtered js NonUserActionable (VRef m) w4) as Hf.
  destruct (perform_cases js (ViaRecord NonUserActionable WARNING (VRef m)) w4) as (Hs & Hled & _).
  simpl perform in Hs, Hled. unfold record in Hret, Hp, Hf, Hs, Hled.
  destruct (throwInternalNonUserActionable js WARNING (VRef m) w4) as [r w'] eqn:E.
  simpl in Hret, Hp, Hf, Hs, Hled.
  assert (Hser : serializable js w4 (VRef m) = true).
  { simpl. match goal with |- context [match ?x with Some _ => _ | None => _ end] =>
      replace x with (Some o1) by (symmetry; exact Hl4) end.
    simpl. apply literals_serialize. }
  specialize (Hret Hser). subst r.
  exists w'. unfold bind. rewrite E.
  split; [reflexivity|]. split; [exact Hp|]. split; [|congruence].
  intros Hv. rewrite Hf; [exact Hq4|]. unfold log_settings in Hs4. congruence.
Qed.

End EmptyQueueExtras.

(** ** [Initialization.getDefaultConfig] *)

Section ConfigExtras.

Variable stringToBoolOrDefault : Config.Flag -> bool.

Lemma defaults_in_range (config : option Config.IConfig) :
  let c := Config.getDefaultConfig stringToBoolOrDefault config in
  Config.sessionRenewalMs c = Some (Config.Finite 1800000) /\
  Config.sessionExpirationMs c = Some (Config.Finite 86400000) /\
  Config.positive (Config.maxBatchSizeInBytes c) = true /\
  Config.isNaN (Config.maxBatchInterval c) = false /\
  Config.isNaN (Config.maxAjaxCallsPerView c) = false /\
  Config.falsy_number (Config.diagnosticLogInterval c) = false /\
  Config.falsy_string (Config.endpointUrl c) = false /\
  (exists q, Config.samplingPercentage c = Some (Config.Finite q)
             /\ (0 < q)%Q /\ (q <= 100)%Q) /\
  (exists b1 b2 b3 b4 b5 b6 b7,
     Config.enableDebug c = Config.FlagBool b1 /\
     Config.disableExceptionTracking c = Config.FlagBool b2 /\
     Config.disableTelemetry c = Config.FlagBool b3 /\
     Config.verboseLogging c = Config.FlagBool b4 /\
     Config.emitLineDelimitedJson c = Config.FlagBool b5 /\
     Config.autoTrackPageVisitTime c = Config.FlagBool b6 /\
     Config.disableAjaxTracking c = Config.FlagBool b7).
Proof.
  intros c. subst c. unfold Config.getDefaultConfig.
  set (c := match config with Some c => c | None => Config.empty end).
  cbn [Config.sessionRenewalMs Config.sessionExpirationMs Config.maxBatchSizeInBytes
       Config.maxBatchInterval Config.maxAjaxCallsPerView Config.diagnosticLogInterval
       Config.endpointUrl Config.samplingPercentage Config.enableDebug
       Config.disableExceptionTracking Config.disableTelemetry Config.verboseLogging
       Config.emitLineDelimitedJson Config.autoTrackPageVisitTime
       Config.disableAjaxTracking].
  split; [reflexivity|]. split; [reflexivity|].
  split; [destruct (Config.positive (Config.maxBatchSizeInBytes c)) eqn:E; [exact E|reflexivity]|].
  split; [destruct (Config.isNaN (Config.maxBatchInterval c)) eqn:E; [reflexivity|exact E]|].
  split; [destruct (Config.isNaN (Config.maxAjaxCallsPerView c)) eqn:E; [reflexivity|exact E]|].
  split; [destruct (Config.falsy_number (Config.diagnosticLogInterval c)) eqn:E;
          [reflexivity|exact E]|].
  split; [destruct (Config.falsy_string (Config.endpointUrl c)) eqn:E; [reflexivity|exact E]|].
  split.
  - destruct (Config.samplingPercentage c) as [[| neg |q]|]; simpl.
    + exists 100%Q. split; [reflexivity|]. split; reflexivity || discriminate.
    + destruct neg; simpl; exists 100%Q; (split; [reflexivity|]);
        split; reflexivity || discriminate.
    + destruct (Qle_bool q 0) eqn:E1; simpl.
      { exists 100%Q. split; [reflexivity|]. split; reflexivity || discriminate. }
      destruct (Qle_bool 100 q) eqn:E2; simpl.
      { exists 100%Q. split; [reflexivity|]. split; reflexivity || discriminate. }
      exists q. split; [reflexivity|]. split.
      * apply Qnot_le_lt. intros H. apply Qle_bool_iff in H. congruence.
      * apply Qlt_le_weak, Qnot_le_lt. intros H. apply Qle_bool_iff in H. congruence.
    + exists 100%Q. split; [reflexivity|]. split; reflexivity || discriminate.
  - destruct (Config.is_given (Config.disableExceptionTracking c)),
             (Config.is_given (Config.disableAjaxTracking c));
      repeat eexists.
Qed.

(** X16: whatever configuration is given, also none, the result has the
    two session durations at their fixed values (30 minutes and 24 hours: a
    given value is overwritten), a positive batch size, a batch interval and
    an ajax limit that are not NaN, a diagnostic interval that is neither 0
    nor NaN, a non-empty endpoint, a sampling percentage above 0 and at most
    100, and booleans in all seven switches. *)
Theorem getDefaultConfig_ranges (config : option Config.IConfig) :
  let c := Config.getDefaultConfig stringToBoolOrDefault config in
  Config.sessionRenewalMs c = Some (Config.Finite 1800000) /\
  Config.sessionExpirationMs c = Some (Config.Finite 86400000) /\
  Config.positive (Config.maxBatchSizeInBytes c) = true /\
  Config.isNaN (Config.maxBatchInterval c) = false /\
  Config.isNaN (Config.maxAjaxCallsPerView c) = false /\
  Config.falsy_number (Config.diagnosticLogInterval c) = false /\
  Config.falsy_string (Config.endpointUrl c) = false /\
  (exists q, Config.samplingPercentage c = Some (Config.Finite q)
             /\ (0 < q)%Q /\ (q <= 100)%Q) /\
  (exists b1 b2 b3 b4 b5 b6 b7,
     Config.enableDebug c = Config.FlagBool b1 /\
     Config.disableExceptionTracking c = Config.FlagBool b2 /\
     Config.disableTelemetry c = Config.FlagBool b3 /\
     Config.verboseLogging c = Config.FlagBool b4 /\
     Config.emitLineDelimitedJson c = Config.FlagBool b5 /\
     Config.autoTrackPageVisitTime c = Config.FlagBool b6 /\
     Config.disableAjaxTracking c = Config.FlagBool b7).
Proof. exact (defaults_in_range config). Qed.

Hypothesis boolean_is_itself : forall b, stringToBoolOrDefault (Config.FlagBool b) = b.

(** X17: applying [getDefaultConfig] to its own result changes nothing
    (given that [Util.stringToBoolOrDefault] returns a boolean as it is). *)
Theorem getDefaultConfig_idempotent (config : option Config.IConfig) :
  Config.getDefaultConfig stringToBoolOrDefault
    (Some (Config.getDefaultConfig stringToBoolOrDefault config))
  = Config.getDefaultConfig stringToBoolOrDefault config.
Proof.
  destruct (defaults_in_range config)
    as (_ & _ & H3 & H4 & H5 & H6 & H7 & (q & H8 & Hq0 & Hq100) & _).
  cbv zeta in *.
  set (c1 := Config.getDefaultConfig stringToBoolOrDefault config) in *.
  unfold Config.getDefaultConfig at 1.
  assert (Hs : Config.isNaN (Config.samplingPercentage c1)
               || Config.at_most_zero (Config.samplingPercentage c1)
               || Config.at_least_hundred (Config.samplingPercentage c1)
               = Config.at_least_hundred (Config.samplingPercentage c1)).
  { rewrite H8. simpl.
    replace (Qle_bool q 0) with false; [reflexivity|].
    symmetry. apply not_true_is_false. intros H. apply Qle_bool_iff in H.
    apply (Qlt_not_le _ _ Hq0 H). }
  rewrite H3, H4, H5, H6, H7, Hs. simpl negb. cbv iota.
  assert (Hsp : (if Config.at_least_hundred (Config.samplingPercentage c1)
                 then Some (Config.Finite 100) else Config.samplingPercentage c1)
                = Config.samplingPercentage c1).
  { destruct (Config.at_least_hundred (Config.samplingPercentage c1)) eqn:E; [|reflexivity].
    subst c1. unfold Config.getDefaultConfig in E |- *.
    cbn [Config.samplingPercentage] in E |- *.
    match goal with |- context [if ?b then _ else _] => destruct b eqn:Eb end;
      [reflexivity|].
    apply orb_false_iff in Eb as [_ Eb]. congruence. }
  rewrite Hsp.
  subst c1. unfold Config.getDefaultConfig.
  cbn [Config.instrumentationKey Config.endpointUrl Config.accountId Config.appUserId
       Config.sessionRenewalMs Config.sessionExpirationMs Config.maxBatchSizeInBytes
       Config.maxBatchInterval Config.enableDebug Config.disableExceptionTracking
       Config.disableTelemetry Config.verboseLogging Config.emitLineDelimitedJson
       Config.diagnosticLogInterval Config.autoTrackPageVisitTime
       Config.samplingPercentage Config.disableAjaxTracking Config.maxAjaxCallsPerView].
  rewrite !boolean_is_itself.
  f_equal.
  - destruct (Config.is_given (Config.disableExceptionTracking _)); simpl;
      by rewrite boolean_is_itself.
  - destruct (Config.is_given (Config.disableAjaxTracking _)); simpl;
      by rewrite boolean_is_itself.
Qed.

End ConfigExtras.

(** ** The further properties on concrete worlds *)

Lemma example_literals (fields : list (string * string)) :
  is_Ret (example_stringify (PropObject (ObjLiteral fields))) = true.
Proof. by destruct fields. Qed.

Lemma negative_limit_silences_the_queue_witness :
  fst (setMaxInternalMessageLimit (Num (-1)) (logging_world 25 false false working_console))
    = Ret tt /\
  queue (snd (perform_ops example_stringify
                [DoCall (Direct CRITICAL (VRef 0%nat)); DoReset;
                 DoCall (ViaRecord UserActionable CRITICAL (VRef 0%nat))]
                (snd (setMaxInternalMessageLimit (Num (-1))
                        (logging_world 25 false false working_console))))) = [].
Proof.
  apply (negative_limit_silences_the_queue example_stringify (-1)
           [DoCall (Direct CRITICAL (VRef 0%nat)); DoReset;
            DoCall (ViaRecord UserActionable CRITICAL (VRef 0%nat))]
           (logging_world 25 false false working_console)); [reflexivity | discriminate].
Defined.

Lemma reset_reopens_the_throttle_witness :
  exists w',
    perform_all example_stringify
      [Direct CRITICAL (VRef 0%nat); Direct CRITICAL (VRef 0%nat); Direct CRITICAL (VRef 0%nat)]
      (snd (resetInternalMessageCount throttled_world)) = (Ret tt, w') /\
    queue w' = [VRef 0%nat; VRef 0%nat; VRef 3%nat; VRef 0%nat; VRef 0%nat; VRef 4%nat] /\
    _messageCount w' = 2.
Proof.
  exact (reset_reopens_the_throttle example_stringify 2
           [Direct CRITICAL (VRef 0%nat); Direct CRITICAL (VRef 0%nat);
            Direct CRITICAL (VRef 0%nat)]
           throttled_world eq_refl eq_refl eq_refl eq_refl).
Defined.

Lemma recording_twice_prefixes_twice_witness :
  heap (snd (record example_stringify UserActionable CRITICAL (VRef 0%nat)
               (snd (record example_stringify NonUserActionable CRITICAL (VRef 0%nat)
                       (logging_world 25 false false working_console))))) !! 0%nat
  = Some {| message := Some "AI: AI (Internal): error!";
            properties := PropObject (ObjLiteral []) |}.
Proof.
  exact (recording_twice_prefixes_twice example_stringify
           NonUserActionable UserActionable CRITICAL CRITICAL 0%nat
           {| message := Some "error!"; properties := PropObject (ObjLiteral []) |}
           "error!" (logging_world 25 false false working_console)
           eq_refl eq_refl eq_refl).
Defined.

Lemma report_call_writes_to_console_witness :
  console_lines (snd (record example_stringify UserActionable WARNING (VRef 0%nat)
                        throttled_world))
  = console_lines throttled_world ++ ["AI: error! properties: {}"] /\
  queue (snd (record example_stringify UserActionable WARNING (VRef 0%nat) throttled_world))
  = queue throttled_world.
Proof.
  split; [|reflexivity].
  exact (report_call_writes_to_console example_stringify UserActionable WARNING 0%nat
           {| message := Some "error!"; properties := PropObject (ObjLiteral []) |}
           "error!" "AI: error! properties: {}" throttled_world
           eq_refl eq_refl eq_refl eq_refl eq_refl).
Defined.

Lemma reportLostItems_never_throws_witness :
  fst (reportLostItems example_stringify example_name example_dump quota_ledger) = Ret tt /\
  fst (reportLostItems example_stringify example_name example_dump failing_report_ledger)
  = Ret tt.
Proof.
  split.
  - exact (reportLostItems_never_throws example_stringify example_name example_dump
             example_literals quota_ledger eq_refl eq_refl).
  - exact (reportLostItems_never_throws example_stringify example_name example_dump
             example_literals failing_report_ledger eq_refl eq_refl).
Defined.

Lemma failed_report_is_logged_witness :
  let w' := snd (reportLostItems example_stringify example_name example_dump
                   failing_report_ledger) in
  fst (reportLostItems example_stringify example_name example_dump failing_report_ledger)
    = Ret tt /\
  queue w' = [VRef 3%nat] /\
  _messageCount w' = 1 /\
  heap w' !! 3%nat
  = Some {| message := Some "AI (Internal): Failed to report data loss: Error";
            properties := PropObject (ObjLiteral [("exception", "send failed")]) |}.
Proof.
  exact (failed_report_is_logged example_stringify example_name example_dump
           example_literals failing_report_ledger 0 3
           (ThrownError "Error" "send failed")
           eq_refl eq_refl eq_refl eq_refl eq_refl eq_refl eq_refl eq_refl eq_refl eq_refl
           eq_refl).
Defined.

Lemma no_loss_no_report_witness :
  let w' := snd (reportLostItems example_stringify example_name example_dump
                   failing_reporter_no_loss) in
  fst (reportLostItems example_stringify example_name example_dump failing_reporter_no_loss)
    = Ret tt /\
  reporter_calls w' = [] /\
  persisted ISSUES_REPORTED_KEY w' = Some "2" /\
  persisted ITEMS_QUEUED_KEY w' = Some "0" /\
  log_part w' = log_part failing_reporter_no_loss.
Proof.
  exact (no_loss_no_report example_stringify example_name example_dump
           failing_reporter_no_loss 0 eq_refl eq_refl eq_refl eq_refl (Z.le_refl 0)).
Defined.

Lemma reports_are_capped_per_session_witness :
  let os := [OpIncrement; OpReport; OpIncrement; OpIncrement; OpReport;
             OpDecrement (Num 1); OpIncrement; OpReport; OpReset; OpReport] in
  let w' := snd (ledger_ops example_stringify example_name example_dump os
                   nearly_full_ledger) in
  fst (ledger_ops example_stringify example_name example_dump os nearly_full_ledger)
    = Ret tt /\
  exists n',
    fst (getIssuesReported w') = Ret (Num n') /\
    9 <= n' <= 10 /\
    Z.of_nat (reports_sent w') = Z.of_nat (reports_sent nearly_full_ledger) + (n' - 9).
Proof.
  apply (reports_are_capped_per_session example_stringify example_name example_dump
           [OpIncrement; OpReport; OpIncrement; OpIncrement; OpReport;
            OpDecrement (Num 1); OpIncrement; OpReport; OpReset; OpReport]
           nearly_full_ledger 9); first [reflexivity | discriminate].
Defined.

Lemma ledger_disabled_noop_witness :
  reset (logging_world 25 false false working_console)
    = (Ret tt, logging_world 25 false false working_console) /\
  getIssuesReported (logging_world 25 false false working_console)
    = (Ret (Num 0), logging_world 25 false false working_console) /\
  reportLostItems example_stringify example_name example_dump
    (logging_world 25 false false working_console)
    = (Ret tt, logging_world 25 false false working_console).
Proof.
  destruct (ledger_disabled_noop example_stringify example_name example_dump
              (logging_world 25 false false working_console) eq_refl)
    as (H1 & H2 & _ & _ & _ & H6).
  exact (conj H1 (conj H2 H6)).
Defined.

Lemma poll_sends_and_empties_the_queue_witness :
  exists calls w',
    pollInteralLogs_callback example_sink throttled_world = (calls, (Ret tt, w')) /\
    map Some calls = map (trace_of throttled_world) (queue throttled_world) /\
    queue w' = [] /\
    _messageCount w' = 2 /\
    (2 <= 2 ->
     forall cs, queue (snd (perform_all example_stringify cs w')) = []).
Proof.
  exact (poll_sends_and_empties_the_queue example_stringify example_sink throttled_world
           eq_refl eq_refl).
Defined.

Lemma failed_poll_keeps_the_queue_witness :
  throttled_world = throttled_world /\
  exists n,
    map Some [TraceMessageProperties (Some "error!") (PropObject (ObjLiteral []))]
    = map (trace_of throttled_world) (take n (queue throttled_world)).
Proof.
  exact (failed_poll_keeps_the_queue failing_sink throttled_world
           [TraceMessageProperties (Some "error!") (PropObject (ObjLiteral []))]
           (ThrownError "Error" "send failed") throttled_world eq_refl).
Defined.

Lemma null_message_blocks_the_poll_witness :
  let w := snd (logInternalMessage CRITICAL (VRef 0%nat)
                  (logging_world 25 false false working_console)) in
  let w1 := snd (logInternalMessage CRITICAL VNull w) in
  exists rest calls e,
    queue w1 = queue w ++ VNull :: rest /\
    pollInteralLogs_callback example_sink w1 = (calls, (Throw e, w1)) /\
    map Some calls = map (trace_of w1) (queue w).
Proof.
  exact (null_message_blocks_the_poll example_sink
           (snd (logInternalMessage CRITICAL (VRef 0%nat)
                   (logging_world 25 false false working_console)))
           eq_refl eq_refl eq_refl).
Defined.

Lemma failing_queued_call_stops_emptyQueue_witness :
  let calls := [resetInternalMessageCount;
                throw (ThrownError "TypeError" "undefined is not a function");
                throwInternalUserActionable example_stringify CRITICAL (VRef 0%nat)] in
  exists w',
    emptyQueue example_toString example_stringify (Some calls)
      (logging_world 25 false false working_console)
    = (Ret (Some calls), w') /\
    heap w' !! 3%nat
    = Some {| message := Some "AI (Internal): Failed to send queued telemetry";
              properties :=
                PropObject (ObjLiteral
                  [("exception", "TypeError: undefined is not a function")]) |} /\
    (false = false -> queue w' = []) /\
    ledger_part w' = ledger_part (logging_world 25 false false working_console).
Proof.
  exact (failing_queued_call_stops_emptyQueue example_toString example_stringify
           example_literals
           [resetInternalMessageCount]
           (throw (ThrownError "TypeError" "undefined is not a function"))
           [throwInternalUserActionable example_stringify CRITICAL (VRef 0%nat)]
           (logging_world 25 false false working_console) _ _
           (ThrownError "TypeError" "undefined is not a function")
           eq_refl eq_refl eq_refl eq_refl).
Defined.

Lemma getDefaultConfig_idempotent_witness :
  Config.getDefaultConfig Config.example_stringToBool
    (Some (Config.getDefaultConfig Config.example_stringToBool (Some example_config)))
  = Config.getDefaultConfig Config.example_stringToBool (Some example_config).
Proof.
  exact (getDefaultConfig_idempotent Config.example_stringToBool
           (fun b => eq_refl) (Some example_config)).
Defined.

Lemma failed_report_throws_in_debug_mode_witness :
  let w' := snd (reportLostItems example_stringify example_name example_dump
                   failing_report_ledger_debug) in
  fst (reportLostItems example_stringify example_name example_dump
         failing_report_ledger_debug) = Throw (ThrownValue (VRef 3%nat)) /\
  heap w' !! 3%nat
  = Some {| message := Some "Failed to report data loss: Error";
            properties := PropObject (ObjLiteral [("exception", "send failed")]) |} /\
  queue w' = [] /\
  persisted ITEMS_QUEUED_KEY w' = Some "0".
Proof.
  exact (failed_report_throws_in_debug_mode example_stringify example_name example_dump
           failing_report_ledger_debug 0 3 (ThrownError "Error" "send failed")
           eq_refl eq_refl eq_refl eq_refl eq_refl eq_refl eq_refl eq_refl eq_refl).
Defined.
